(** * IoT device risk management: a shallow embedding of [IoT.py]

    The development follows the layout of the Python module:
    the interpreter state the module touches (wall clock, random source,
    standard output, the heap of [Recommendation] objects), then
    [DEVICE_RISK_LEVELS], the classes [User], [IoTDevice],
    [Recommendation], [DeviceReport], [AccessControl], and the approval
    step of the [__main__] block.  Theorems come after all definitions. *)

From Stdlib Require Import ZArith Lia.
From stdpp Require Import gmap strings list fin_maps pretty.

Local Open Scope string_scope.

(** ** Interpreter state *)

Module Runtime.

(** Exceptions the modelled code can raise.  [AttributeError] and
    [IndexError] are Python's; [DanglingReference] marks a heap address
    that was never allocated, which no Python program can hold and which
    the well-formedness predicates below rule out. *)
Inductive exn : Type :=
| AttributeError (msg : string)
| IndexError (msg : string)
| DanglingReference (addr : nat).

Inductive outcome (A : Type) : Type :=
| Returns (a : A)
| Raises (e : exn).
Arguments Returns {A} a.
Arguments Raises {A} e.

(** A stored [Recommendation] object (the class is introduced here
    because the heap holds its instances). *)
Record Recommendation : Type := mkRecommendation {
  description : string;
  approved : bool
}.

(** [clock n] is what the [n]-th call of [datetime.now()] returns, in
    microseconds; [randint_0_2 n] is what the [n]-th call of
    [random.randint(0, 2)] returns; [stdout] lists the arguments of the
    [print] calls so far, oldest first. *)
Record World : Type := mkWorld {
  clock : nat -> Z;
  clock_reads : nat;
  randint_0_2 : nat -> Z;
  rand_draws : nat;
  stdout : list string;
  heap : list Recommendation
}.

Definition Py (A : Type) : Type := World -> outcome A * World.

Definition ret {A} (a : A) : Py A := fun w => (Returns a, w).

Definition bind {A B} (m : Py A) (k : A -> Py B) : Py B :=
  fun w =>
    match m w with
    | (Returns a, w') => k a w'
    | (Raises e, w') => (Raises e, w')
    end.

Definition raise {A} (e : exn) : Py A := fun w => (Raises e, w).

Definition datetime_now : Py Z :=
  fun w =>
    (Returns (clock w (clock_reads w)),
     mkWorld (clock w) (S (clock_reads w)) (randint_0_2 w) (rand_draws w)
             (stdout w) (heap w)).

(** [random.randint(0, 2)], the only call of the random module. *)
Definition random_randint_0_2 : Py Z :=
  fun w =>
    (Returns (randint_0_2 w (rand_draws w)),
     mkWorld (clock w) (clock_reads w) (randint_0_2 w) (S (rand_draws w))
             (stdout w) (heap w)).

Definition print (s : string) : Py unit :=
  fun w =>
    (Returns tt,
     mkWorld (clock w) (clock_reads w) (randint_0_2 w) (rand_draws w)
             (stdout w ++ [s]) (heap w)).

(** Allocation of a fresh object: its address is the old heap size. *)
Definition alloc (r : Recommendation) : Py nat :=
  fun w =>
    (Returns (length (heap w)),
     mkWorld (clock w) (clock_reads w) (randint_0_2 w) (rand_draws w)
             (stdout w) (heap w ++ [r])).

Definition deref (l : nat) : Py Recommendation :=
  fun w =>
    match heap w !! l with
    | Some r => (Returns r, w)
    | None => (Raises (DanglingReference l), w)
    end.

Definition store (l : nat) (r : Recommendation) : Py unit :=
  fun w =>
    match heap w !! l with
    | Some _ =>
        (Returns tt,
         mkWorld (clock w) (clock_reads w) (randint_0_2 w) (rand_draws w)
                 (stdout w) (<[l := r]> (heap w)))
    | None => (Raises (DanglingReference l), w)
    end.

(** The contract of [random.randint(0, 2)]: every draw lies in [0, 2]. *)
Definition random_ok (w : World) : Prop :=
  forall n, (0 <= randint_0_2 w n <= 2)%Z.

(** [timedelta.days] of a difference of two [datetime] values: the
    normalised representation keeps [0 <= seconds < 86400], so [days]
    is the floor of the quotient. *)
Definition microseconds_per_day : Z := 86400000000.

Definition timedelta_days (delta : Z) : Z := (delta / microseconds_per_day)%Z.

End Runtime.

Export Runtime.

Notation "'let*' x ':=' m 'in' k" := (bind m (fun x => k))
  (at level 10, x pattern, m at level 100, k at level 200,
   format "'[v' 'let*'  x  ':='  m  'in' '/' k ']'").

Definition nl : string := String (Ascii.ascii_of_nat 10) EmptyString.

(** ["sep".join(parts)] *)
Definition join (sep : string) (parts : list string) : string :=
  String.concat sep parts.

(** ** DEVICE_RISK_LEVELS *)

Definition DEVICE_RISK_LEVELS : gmap string (gmap string Z) :=
  <["door_lock" := <["1.2" := 3%Z]> (<["1.1" := 5%Z]> (<["1.0" := 7%Z]> ∅))]>
  (<["security_camera" := <["1.2" := 3%Z]> (<["1.1" := 4%Z]> (<["1.0" := 6%Z]> ∅))]>
  (<["thermostat" := <["1.2" := 1%Z]> (<["1.1" := 3%Z]> (<["1.0" := 4%Z]> ∅))]>
  (<["smart_light" := <["1.2" := 2%Z]> (<["1.1" := 3%Z]> (<["1.0" := 5%Z]> ∅))]>
   ∅))).

(** [d.get(k, dflt)] *)
Definition dict_get {V} (d : gmap string V) (k : string) (dflt : V) : V :=
  default dflt (d !! k).

(** ** Enumerations *)

Inductive DeviceStatus : Type := ACTIVE | INACTIVE | UNDER_MAINTENANCE.

Definition DeviceStatus_value (s : DeviceStatus) : string :=
  match s with
  | ACTIVE => "active"
  | INACTIVE => "inactive"
  | UNDER_MAINTENANCE => "under maintenance"
  end.

Global Instance DeviceStatus_eq_dec : EqDecision DeviceStatus.
Proof. solve_decision. Defined.

Inductive Role : Type := VIEWER | MANAGER | ADMIN.

Definition Role_value (r : Role) : string :=
  match r with
  | VIEWER => "viewer"
  | MANAGER => "manager"
  | ADMIN => "admin"
  end.

Global Instance Role_eq_dec : EqDecision Role.
Proof. solve_decision. Defined.

(** ** class User *)

Record User : Type := mkUser {
  username : string;
  role : Role;
  is_active : bool
}.

Definition User_str (u : User) : string :=
  username u ++ " (" ++ Role_value (role u) ++ ") - "
  ++ (if is_active u then "Active" else "Inactive").

(** ** class IoTDevice *)

Record IoTDevice : Type := mkIoTDevice {
  device_id : string;
  device_type : string;
  firmware_version : string;
  status : DeviceStatus;
  last_updated : Z;
  risk_level : Z
}.

(** The table lookup on the first line of [calculate_risk]. *)
Definition base_risk (device_type firmware_version : string) : Z :=
  dict_get (dict_get DEVICE_RISK_LEVELS device_type ∅) firmware_version 0%Z.

(** [calculate_risk] reads only [device_type], [firmware_version] and
    [last_updated] of [self]; [risk_level] is not yet set when it runs. *)
Definition calculate_risk (device_type firmware_version : string)
    (last_updated : Z) : Py Z :=
  let base_risk0 := base_risk device_type firmware_version in
  let* now := datetime_now in
  let firmware_age_days := timedelta_days (now - last_updated) in
  let base_risk1 :=
    if bool_decide (firmware_age_days > 180)%Z then (base_risk0 + 2)%Z
    else base_risk0 in
  let* r := random_randint_0_2 in
  ret (base_risk1 + r)%Z.

Definition IoTDevice_init (device_id device_type firmware_version : string)
    (status : DeviceStatus) : Py IoTDevice :=
  let* last_updated := datetime_now in
  let* risk_level := calculate_risk device_type firmware_version last_updated in
  ret (mkIoTDevice device_id device_type firmware_version status
                   last_updated risk_level).

Definition IoTDevice_str (d : IoTDevice) : string :=
  "Device " ++ device_id d ++ ": " ++ device_type d ++ " v"
  ++ firmware_version d ++ " - Status: " ++ DeviceStatus_value (status d)
  ++ " - Risk Level: " ++ pretty (risk_level d).

(** Attribute assignment [device.status = s]. *)
Definition set_status (d : IoTDevice) (s : DeviceStatus) : IoTDevice :=
  mkIoTDevice (device_id d) (device_type d) (firmware_version d) s
              (last_updated d) (risk_level d).

(** ** class Recommendation

    Instances live on the heap and are handled through their address,
    so that one object appended twice to a report stays one object. *)

Definition Recommendation_init (description : string) (approved : bool)
    : Py nat :=
  alloc (mkRecommendation description approved).

Definition approve (self : nat) : Py unit :=
  let* r := deref self in
  store self (mkRecommendation (description r) true).

Definition reject (self : nat) : Py unit :=
  let* r := deref self in
  store self (mkRecommendation (description r) false).

Definition Recommendation_render (r : Recommendation) : string :=
  "Recommendation: " ++ description r ++ " - "
  ++ (if approved r then "Approved" else "Pending").

Definition Recommendation_str (self : nat) : Py string :=
  let* r := deref self in
  ret (Recommendation_render r).

(** ** class DeviceReport *)

Record DeviceReport : Type := mkDeviceReport {
  devices : list IoTDevice;
  recommendations : list nat
}.

Definition DeviceReport_init : DeviceReport := mkDeviceReport [] [].

Definition add_device (self : DeviceReport) (device : IoTDevice)
    : DeviceReport :=
  mkDeviceReport (devices self ++ [device]) (recommendations self).

Definition generate_report (self : DeviceReport) : string :=
  join nl (map IoTDevice_str (devices self)).

Definition add_recommendation (self : DeviceReport) (recommendation : nat)
    : DeviceReport :=
  mkDeviceReport (devices self) (recommendations self ++ [recommendation]).

(** [str(rec) for rec in ...], left to right. *)
Fixpoint for_each {A B} (f : A -> Py B) (xs : list A) : Py (list B) :=
  match xs with
  | [] => ret []
  | x :: rest =>
      let* y := f x in
      let* ys := for_each f rest in
      ret (y :: ys)
  end.

Definition view_recommendations (self : DeviceReport) : Py string :=
  let* lines := for_each Recommendation_str (recommendations self) in
  ret (join nl lines).

(** The six local variables of [generate_statistics]. *)
Record Statistics : Type := mkStatistics {
  total_devices : nat;
  active_devices : nat;
  inactive_devices : nat;
  maintenance_devices : nat;
  high_risk_devices : nat;
  low_risk_devices : nat
}.

Definition statistics_counts (self : DeviceReport) : Statistics :=
  mkStatistics
    (length (devices self))
    (length (filter (fun d => status d = ACTIVE) (devices self)))
    (length (filter (fun d => status d = INACTIVE) (devices self)))
    (length (filter (fun d => status d = UNDER_MAINTENANCE) (devices self)))
    (length (filter (fun d => (risk_level d >= 5)%Z) (devices self)))
    (length (filter (fun d => (risk_level d < 5)%Z) (devices self))).

Definition Statistics_render (s : Statistics) : string :=
  "Total Devices: " ++ pretty (total_devices s) ++ nl
  ++ "Active Devices: " ++ pretty (active_devices s) ++ nl
  ++ "Inactive Devices: " ++ pretty (inactive_devices s) ++ nl
  ++ "Under Maintenance: " ++ pretty (maintenance_devices s) ++ nl
  ++ "High Risk Devices (Risk Level >= 5): "
  ++ pretty (high_risk_devices s) ++ nl
  ++ "Low Risk Devices (Risk Level < 5): "
  ++ pretty (low_risk_devices s) ++ nl.

Definition generate_statistics (self : DeviceReport) : string :=
  Statistics_render (statistics_counts self).

(** ** class AccessControl *)

Record AccessControl : Type := mkAccessControl {
  users : gmap string User
}.

Definition AccessControl_init : AccessControl := mkAccessControl ∅.

Definition add_user (self : AccessControl) (username : string) (role : Role)
    (is_active : bool) : AccessControl :=
  mkAccessControl (<[username := mkUser username role is_active]> (users self)).

(** [self.users.get(username)], as the [__main__] block looks a user up. *)
Definition users_get (self : AccessControl) (username : string)
    : option User :=
  users self !! username.

(** The argument is what the caller holds: a [User] object, or [None]
    when it comes from [users.get] on an unknown name.  Reading
    [user.is_active] on [None] raises. *)
Definition check_access (user : option User) (action : string) : Py bool :=
  match user with
  | None =>
      raise (AttributeError "'NoneType' object has no attribute 'is_active'")
  | Some user =>
      if negb (is_active user) then
        let* _ := print ("Access Denied: User " ++ username user
                         ++ " is inactive.") in
        ret false
      else if bool_decide (action = "view_report") then
        ret (bool_decide (role user ∈ [VIEWER; MANAGER; ADMIN]))
      else if bool_decide (action = "modify_report") then
        ret (bool_decide (role user ∈ [MANAGER; ADMIN]))
      else if bool_decide (action = "add_device") then
        ret (bool_decide (role user = ADMIN))
      else if bool_decide (action = "approve_recommendation") then
        ret (bool_decide (role user = MANAGER))
      else ret false
  end.

(** ** The [__main__] block *)

(** The authorization query of the session: lookup, then [check_access]. *)
Definition main_authorize (access_control : AccessControl)
    (username : string) : Py bool :=
  check_access (users_get access_control username) "view_report".

(** One pass through the body of the approval loop after the answer
    "yes"; [number] is the integer typed at the prompt. *)
Definition approval_step (report : DeviceReport) (number : Z) : Py unit :=
  let* _ := print (nl ++ "Pending Recommendations:") in
  let* text := view_recommendations report in
  let* _ := print text in
  let index := (number - 1)%Z in
  if bool_decide (0 <= index < Z.of_nat (length (recommendations report)))%Z
  then
    match recommendations report !! Z.to_nat index with
    | Some rec =>
        let* _ := approve rec in
        print "Recommendation approved."
    | None => raise (IndexError "list index out of range")
    end
  else print "Invalid recommendation index.".

(** ** Sessions

    What a front end can do with one report, one step at a time.  The
    constructors [CreateDevice], [CreateRecommendation] and
    [ApprovalStep] are the bodies of the three loops of the [__main__]
    block; the others are the remaining methods and attribute
    assignments the classes offer, [CalculateRisk] being a later call of
    [calculate_risk] on a device of the report, whose result is dropped. *)

Inductive Op : Type :=
| CreateDevice (device_id device_type firmware_version : string)
               (status : DeviceStatus)
| SetStatus (index : nat) (status : DeviceStatus)
| CalculateRisk (index : nat)
| CreateRecommendation (description : string)
| AddRecommendation (rec : nat)
| PrintReport
| PrintRecommendations
| PrintStatistics
| CheckAccess (user : option User) (action : string)
| Approve (rec : nat)
| Reject (rec : nat)
| ApprovalStep (number : Z).

Definition apply_op (op : Op) (report : DeviceReport) : Py DeviceReport :=
  match op with
  | CreateDevice id type version status =>
      let* new_device := IoTDevice_init id type version status in
      let report' := add_device report new_device in
      let* _ := print ("Device " ++ device_id new_device ++ " added.") in
      ret report'
  | SetStatus index status =>
      match devices report !! index with
      | Some d =>
          ret (mkDeviceReport (<[index := set_status d status]> (devices report))
                              (recommendations report))
      | None => raise (IndexError "list index out of range")
      end
  | CalculateRisk index =>
      match devices report !! index with
      | Some d =>
          let* _ := calculate_risk (device_type d) (firmware_version d)
                                   (last_updated d) in
          ret report
      | None => raise (IndexError "list index out of range")
      end
  | CreateRecommendation recommendation_text =>
      let* new_recommendation :=
        Recommendation_init recommendation_text false in
      let report' := add_recommendation report new_recommendation in
      let* shown := Recommendation_str new_recommendation in
      let* _ := print ("Recommendation added: " ++ shown) in
      ret report'
  | AddRecommendation rec =>
      let* _ := deref rec in
      ret (add_recommendation report rec)
  | PrintReport =>
      let* _ := print (generate_report report) in
      ret report
  | PrintRecommendations =>
      let* text := view_recommendations report in
      let* _ := print text in
      ret report
  | PrintStatistics =>
      let* _ := print (generate_statistics report) in
      ret report
  | CheckAccess user action =>
      let* _ := check_access user action in
      ret report
  | Approve rec =>
      let* _ := approve rec in
      ret report
  | Reject rec =>
      let* _ := reject rec in
      ret report
  | ApprovalStep number =>
      let* _ := approval_step report number in
      ret report
  end.

(** A session runs its steps in order and stops at the first exception;
    the report and the world it leaves behind are those reached so far. *)
Record Session : Type := mkSession {
  session_result : outcome unit;
  session_report : DeviceReport;
  session_world : World
}.

Fixpoint run_ops (ops : list Op) (report : DeviceReport) (w : World)
    : Session :=
  match ops with
  | [] => mkSession (Returns tt) report w
  | op :: rest =>
      match apply_op op report w with
      | (Returns report', w') => run_ops rest report' w'
      | (Raises e, w') => mkSession (Raises e) report w'
      end
  end.

(** Every address a report holds has been allocated. *)
Definition report_wf (report : DeviceReport) (w : World) : Prop :=
  Forall (fun l => l < length (heap w)) (recommendations report).

(** ** The rest of the [__main__] block

    The typed answers are parameters of the loop bodies, as the typed
    number is one of [approval_step].  Text is taken to be ASCII: bytes
    above 127 are left alone by [str_lower] and [str_upper]. *)

(** [c.lower()] and [c.upper()] on one character. *)
Definition ascii_lower (c : Ascii.ascii) : Ascii.ascii :=
  let n := Ascii.nat_of_ascii c in
  if (65 <=? n)%nat && (n <=? 90)%nat then Ascii.ascii_of_nat (n + 32) else c.

Definition ascii_upper (c : Ascii.ascii) : Ascii.ascii :=
  let n := Ascii.nat_of_ascii c in
  if (97 <=? n)%nat && (n <=? 122)%nat then Ascii.ascii_of_nat (n - 32) else c.

Definition is_ascii_upper (c : Ascii.ascii) : bool :=
  let n := Ascii.nat_of_ascii c in (65 <=? n)%nat && (n <=? 90)%nat.

Fixpoint str_lower (s : string) : string :=
  match s with
  | EmptyString => EmptyString
  | String c rest => String (ascii_lower c) (str_lower rest)
  end.

Fixpoint str_upper (s : string) : string :=
  match s with
  | EmptyString => EmptyString
  | String c rest => String (ascii_upper c) (str_upper rest)
  end.

(** [Role.__members__] and [DeviceStatus.__members__]: member names, in
    definition order, with their members. *)
Definition Role_members : list (string * Role) :=
  [("VIEWER", VIEWER); ("MANAGER", MANAGER); ("ADMIN", ADMIN)].

Definition DeviceStatus_members : list (string * DeviceStatus) :=
  [("ACTIVE", ACTIVE); ("INACTIVE", INACTIVE);
   ("UNDER_MAINTENANCE", UNDER_MAINTENANCE)].

(** [E[name]] for an enumeration [E]; [None] stands for [KeyError]. *)
Fixpoint members_getitem {E} (members : list (string * E)) (name : string)
    : option E :=
  match members with
  | [] => None
  | (n, member) :: rest =>
      if bool_decide (n = name) then Some member
      else members_getitem rest name
  end.

(** [role = input(...).lower()] followed by
    [Role[role.upper()] if role in Role.__members__ else Role.VIEWER]. *)
Definition read_role (typed : string) : option Role :=
  let role := str_lower typed in
  if bool_decide (role ∈ map fst Role_members)
  then members_getitem Role_members (str_upper role)
  else Some VIEWER.

(** The same conversion for the device status. *)
Definition read_status (typed : string) : option DeviceStatus :=
  let device_status := str_lower typed in
  if bool_decide (device_status ∈ map fst DeviceStatus_members)
  then members_getitem DeviceStatus_members (str_upper device_status)
  else Some ACTIVE.

(** One pass of the user loop; [None] is the [KeyError] of the
    conversion, raised before the registry is touched. *)
Definition create_user_step (access_control : AccessControl)
    (username typed_role : string) : option AccessControl :=
  match read_role typed_role with
  | Some role => Some (add_user access_control username role true)
  | None => None
  end.

(** [for _ in range(num_users)]: one (name, role) pair of answers per
    pass. *)
Fixpoint create_users (answers : list (string * string))
    (access_control : AccessControl) : option AccessControl :=
  match answers with
  | [] => Some access_control
  | (username, typed_role) :: rest =>
      match create_user_step access_control username typed_role with
      | Some access_control' => create_users rest access_control'
      | None => None
      end
  end.

(** One pass of the device loop after the answer "yes"; [None] is again
    the [KeyError] of the conversion, raised before the device is
    built. *)
Definition create_device_step (report : DeviceReport)
    (device_id typed_type firmware_version typed_status : string)
    : option (Py DeviceReport) :=
  let device_type := str_lower typed_type in
  match read_status typed_status with
  | Some status =>
      Some (apply_op (CreateDevice device_id device_type firmware_version
                                   status) report)
  | None => None
  end.

(** The device loop over the passes answered "yes". *)
Fixpoint create_devices (answers : list (string * string * string * string))
    (report : DeviceReport) (w : World)
    : option (outcome DeviceReport * World) :=
  match answers with
  | [] => Some (Returns report, w)
  | (device_id, typed_type, firmware_version, typed_status) :: rest =>
      match create_device_step report device_id typed_type firmware_version
                               typed_status with
      | None => None
      | Some step =>
          match step w with
          | (Returns report', w') => create_devices rest report' w'
          | (Raises e, w') => Some (Raises e, w')
          end
      end
  end.

(** The test that opens the recommendation loops:
    [user.role in [Role.MANAGER, Role.ADMIN]]. *)
Definition may_manage_recommendations (user : User) : bool :=
  bool_decide (role user ∈ [MANAGER; ADMIN]).

(** Every entry of the registry is an active Viewer under their own name. *)
Definition registry_of_viewers (access_control : AccessControl) : Prop :=
  forall name user,
    users access_control !! name = Some user -> user = mkUser name VIEWER true.

(** ** The specification's view

    Definitions written from the specification's words, to be compared
    with the code above. *)

(** The action-to-allowed-roles table of the specification. *)
Definition spec_action_table : list (string * list Role) :=
  [ ("view_report", [VIEWER; MANAGER; ADMIN]);
    ("modify_report", [MANAGER; ADMIN]);
    ("add_device", [ADMIN]);
    ("approve_recommendation", [MANAGER]) ].

Fixpoint spec_allowed_roles_in (table : list (string * list Role))
    (action : string) : list Role :=
  match table with
  | [] => []
  | (a, roles) :: rest =>
      if bool_decide (a = action) then roles
      else spec_allowed_roles_in rest action
  end.

Definition spec_allowed_roles (action : string) : list Role :=
  spec_allowed_roles_in spec_action_table action.

(** A (type, version) pair is present in the static table with value [v]. *)
Definition configured (device_type firmware_version : string) (v : Z) : Prop :=
  exists versions,
    DEVICE_RISK_LEVELS !! device_type = Some versions
    /\ versions !! firmware_version = Some v.

(** Whole days between the two clock readings of a construction that
    starts in world [w]: [__init__] reads the clock first, then
    [calculate_risk] reads it again. *)
Definition construction_age_days (w : World) : Z :=
  timedelta_days (clock w (S (clock_reads w)) - clock w (clock_reads w)).

(** ** Relations between states of a session *)

(** Objects on the heap are never freed and never renamed; an approved
    object at a protected address stays approved. *)
Definition heap_rel (P : nat -> Prop) (w w' : World) : Prop :=
  forall l r,
    heap w !! l = Some r ->
    exists r',
      heap w' !! l = Some r'
      /\ description r' = description r
      /\ (P l -> approved r = true -> approved r' = true).

(** [effect R m]: whatever [m] answers, the world it leaves is related
    by [R] to the world it started in. *)
Definition effect (R : World -> World -> Prop) {A} (m : Py A) : Prop :=
  forall w, R w (m w).2.

Definition op_respects (P : nat -> Prop) (op : Op) : Prop :=
  match op with
  | Reject l => ~ P l
  | _ => True
  end.

(** Risk levels already in the report stay where they are. *)
Definition devices_kept (ds ds' : list IoTDevice) : Prop :=
  forall i d,
    ds !! i = Some d ->
    exists d', ds' !! i = Some d' /\ risk_level d' = risk_level d.

(** What a step may do to the report object itself. *)
Definition report_step (report report' : DeviceReport) : Prop :=
  devices_kept (devices report) (devices report')
  /\ recommendations report `prefix_of` recommendations report'.

(** [yields Q m]: every value [m] returns satisfies [Q]. *)
Definition yields {A} (Q : A -> Prop) (m : Py A) : Prop :=
  forall w a w', m w = (Returns a, w') -> Q a.

(** Line [i] of the text [view_recommendations] returns is [line]. *)
Definition rendered_at (report : DeviceReport) (w : World) (i : nat)
    (line : string) : Prop :=
  exists lines,
    view_recommendations report w = (Returns (join nl lines), w)
    /\ lines !! i = Some line.

(** The specification's risk bands, counted over a list of risk levels. *)
Fixpoint spec_count (band : Z -> bool) (levels : list Z) : nat :=
  match levels with
  | [] => 0
  | level :: rest => (if band level then 1 else 0) + spec_count band rest
  end.

Definition spec_high_risk (levels : list Z) : nat :=
  spec_count (fun level => (5 <=? level)%Z) levels.

Definition spec_low_risk (levels : list Z) : nat :=
  spec_count (fun level => (level <? 5)%Z) levels.

(** * Theorems *)

(** ** Risk table and risk score *)

Section RiskTable.

Lemma base_risk_configured ty fw v :
  configured ty fw v -> base_risk ty fw = v.
Proof.
  intros (versions & Hty & Hfw).
  unfold base_risk, dict_get. now rewrite Hty; simpl; rewrite Hfw.
Qed.

Lemma base_risk_absent ty fw :
  (forall v, ~ configured ty fw v) -> base_risk ty fw = 0%Z.
Proof.
  intros Habs. unfold base_risk, dict_get.
  destruct (DEVICE_RISK_LEVELS !! ty) as [versions|] eqn:Hty; simpl.
  - destruct (versions !! fw) as [v|] eqn:Hfw; simpl; [|reflexivity].
    exfalso. apply (Habs v). now exists versions.
  - now rewrite lookup_empty.
Qed.

Lemma base_risk_nonneg ty fw : (0 <= base_risk ty fw)%Z.
Proof.
  unfold base_risk, dict_get, DEVICE_RISK_LEVELS.
  repeat (rewrite lookup_insert; case_decide; simpl;
          [repeat (rewrite lookup_insert; case_decide; simpl; [lia|]);
           rewrite lookup_empty; simpl; lia|]).
  rewrite lookup_empty; simpl. rewrite lookup_empty. simpl. lia.
Qed.

End RiskTable.

(** C5.  The base-risk lookup returns exactly the configured integer for
    every (type, version) pair present in the static table, that is 5, 3,
    2 for smart_light, 4, 3, 1 for thermostat, 6, 4, 3 for
    security_camera and 7, 5, 3 for door_lock at versions 1.0, 1.1, 1.2,
    and returns 0 for every absent pair, whether the type or the version
    is unknown. *)
Theorem base_risk_lookup :
  (forall ty fw v, configured ty fw v -> base_risk ty fw = v)
  /\ (forall ty fw, (forall v, ~ configured ty fw v) -> base_risk ty fw = 0%Z)
  /\ map (fun p => base_risk p.1 p.2)
         [ ("smart_light", "1.0"); ("smart_light", "1.1"); ("smart_light", "1.2");
           ("thermostat", "1.0"); ("thermostat", "1.1"); ("thermostat", "1.2");
           ("security_camera", "1.0"); ("security_camera", "1.1");
           ("security_camera", "1.2");
           ("door_lock", "1.0"); ("door_lock", "1.1"); ("door_lock", "1.2") ]
     = [5; 3; 2; 4; 3; 1; 6; 4; 3; 7; 5; 3]%Z
  /\ base_risk "drone" "1.0" = 0%Z
  /\ base_risk "door_lock" "2.0" = 0%Z.
Proof.
  split; [exact base_risk_configured|].
  split; [exact base_risk_absent|].
  repeat split; vm_compute; reflexivity.
Qed.

Lemma base_risk_lookup_witness :
  base_risk "thermostat" "1.2" = 1%Z /\ base_risk "drone" "1.1" = 0%Z.
Proof.
  split.
  - apply (proj1 base_risk_lookup "thermostat" "1.2" 1%Z).
    exists (<["1.2" := 1%Z]> (<["1.1" := 3%Z]> (<["1.0" := 4%Z]> ∅))).
    split; vm_compute; reflexivity.
  - apply (proj1 (proj2 base_risk_lookup) "drone" "1.1").
    intros v (versions & Hty & _). vm_compute in Hty. discriminate Hty.
Defined.

Section RiskScore.

Lemma calculate_risk_eq ty fw last w :
  calculate_risk ty fw last w =
    (Returns
       ((if bool_decide
              (timedelta_days (clock w (clock_reads w) - last) > 180)%Z
         then base_risk ty fw + 2 else base_risk ty fw)
        + randint_0_2 w (rand_draws w))%Z,
     mkWorld (clock w) (S (clock_reads w)) (randint_0_2 w)
             (S (rand_draws w)) (stdout w) (heap w)).
Proof. reflexivity. Qed.

Lemma IoTDevice_init_eq id ty fw st w :
  IoTDevice_init id ty fw st w =
    (Returns
       (mkIoTDevice id ty fw st (clock w (clock_reads w))
          ((if bool_decide (construction_age_days w > 180)%Z
            then base_risk ty fw + 2 else base_risk ty fw)
           + randint_0_2 w (rand_draws w))%Z),
     mkWorld (clock w) (S (S (clock_reads w))) (randint_0_2 w)
             (S (rand_draws w)) (stdout w) (heap w)).
Proof. reflexivity. Qed.

End RiskScore.

(** C6.  With the random residual forced to 0, [calculate_risk] returns
    the base risk plus 2 when the whole-day firmware age exceeds 180 and
    plus 0 otherwise; for smart_light at version 1.1 with residual 0 and
    an age of at most 180 days the score is 3. *)
Theorem score_with_zero_residual (ty fw : string) (last : Z) (w : World) :
  randint_0_2 w (rand_draws w) = 0%Z ->
  let age := timedelta_days (clock w (clock_reads w) - last) in
  (calculate_risk ty fw last w).1
    = Returns (base_risk ty fw + (if bool_decide (age > 180)%Z then 2 else 0))%Z
  /\ ((age <= 180)%Z ->
      (calculate_risk "smart_light" "1.1" last w).1 = Returns 3%Z).
Proof.
  intros Hr age. rewrite !calculate_risk_eq; simpl. rewrite Hr. fold age.
  split.
  - case_bool_decide; f_equal; lia.
  - intros Hage. rewrite bool_decide_eq_false_2 by lia. reflexivity.
Qed.

Lemma score_with_zero_residual_witness :
  let w := mkWorld (fun n => 200 * microseconds_per_day * Z.of_nat n)%Z 1
                   (fun _ => 0%Z) 0 [] [] in
  (calculate_risk "door_lock" "1.0" 0%Z w).1 = Returns 9%Z
  /\ (calculate_risk "smart_light" "1.1" (100 * microseconds_per_day)%Z w).1
     = Returns 3%Z.
Proof.
  intros w. split.
  - exact (proj1 (score_with_zero_residual "door_lock" "1.0" 0%Z w eq_refl)).
  - apply (proj2 (score_with_zero_residual "smart_light" "1.1"
                    (100 * microseconds_per_day)%Z w eq_refl)).
    vm_compute. discriminate.
Defined.

(** C10.  Every constructed device has a risk level between the base
    value of its (type, version) pair and that value plus 4; base values
    are never negative, so neither is the risk level. *)
Theorem risk_level_bounds (id ty fw : string) (st : DeviceStatus) (w : World) :
  random_ok w ->
  exists d w',
    IoTDevice_init id ty fw st w = (Returns d, w')
    /\ (base_risk ty fw <= risk_level d <= base_risk ty fw + 4)%Z
    /\ (0 <= base_risk ty fw)%Z
    /\ (0 <= risk_level d)%Z.
Proof.
  intros Hrand. rewrite IoTDevice_init_eq. eexists _, _. split; [reflexivity|].
  simpl. pose proof (Hrand (rand_draws w)). pose proof (base_risk_nonneg ty fw).
  case_bool_decide; lia.
Qed.

Lemma risk_level_bounds_witness :
  exists d w',
    IoTDevice_init "cam-1" "security_camera" "1.0" ACTIVE
      (mkWorld (fun n => Z.of_nat n) 0 (fun n => Z.of_nat n `mod` 3)%Z 0 [] [])
    = (Returns d, w')
    /\ (base_risk "security_camera" "1.0" <= risk_level d
        <= base_risk "security_camera" "1.0" + 4)%Z
    /\ (0 <= base_risk "security_camera" "1.0")%Z
    /\ (0 <= risk_level d)%Z.
Proof.
  apply risk_level_bounds.
  intros n; simpl. pose proof (Z.mod_pos_bound (Z.of_nat n) 3). lia.
Defined.

(** ** How the operations move the world *)

Section Effects.

Variable P : nat -> Prop.

Lemma heap_rel_refl w : heap_rel P w w.
Proof. intros l r Hl. exists r. auto. Qed.

Lemma heap_rel_trans w1 w2 w3 :
  heap_rel P w1 w2 -> heap_rel P w2 w3 -> heap_rel P w1 w3.
Proof.
  intros H12 H23 l r Hl.
  destruct (H12 l r Hl) as (r2 & Hl2 & Hd2 & Ha2).
  destruct (H23 l r2 Hl2) as (r3 & Hl3 & Hd3 & Ha3).
  exists r3. repeat split; [assumption|congruence|auto].
Qed.

Lemma heap_rel_same_heap w w' : heap w' = heap w -> heap_rel P w w'.
Proof. intros Heq l r Hl. exists r. rewrite Heq. auto. Qed.

Lemma heap_rel_length w w' :
  heap_rel P w w' -> length (heap w) <= length (heap w').
Proof.
  intros Hrel. destruct (heap w) as [|r0 h] eqn:Hh using rev_ind; [simpl; lia|].
  destruct (Hrel (length h) r0) as (r' & Hl' & _).
  - rewrite Hh. apply list_lookup_middle. reflexivity.
  - apply lookup_lt_Some in Hl'. rewrite length_app. simpl. lia.
Qed.

Lemma effect_ret {A} (a : A) : effect (heap_rel P) (ret a).
Proof. intros w. apply heap_rel_refl. Qed.

Lemma effect_raise {A} e : effect (heap_rel P) (@raise A e).
Proof. intros w. apply heap_rel_refl. Qed.

Lemma effect_bind {A B} (m : Py A) (k : A -> Py B) :
  effect (heap_rel P) m ->
  (forall a, effect (heap_rel P) (k a)) ->
  effect (heap_rel P) (bind m k).
Proof.
  intros Hm Hk w. unfold bind. specialize (Hm w).
  destruct (m w) as [[a|e] w1]; simpl in *; [|assumption].
  eapply heap_rel_trans; [exact Hm|apply Hk].
Qed.

Lemma effect_datetime_now : effect (heap_rel P) datetime_now.
Proof. intros w. now apply heap_rel_same_heap. Qed.

Lemma effect_random_randint_0_2 : effect (heap_rel P) random_randint_0_2.
Proof. intros w. now apply heap_rel_same_heap. Qed.

Lemma effect_print s : effect (heap_rel P) (print s).
Proof. intros w. now apply heap_rel_same_heap. Qed.

Lemma effect_deref l : effect (heap_rel P) (deref l).
Proof.
  intros w. unfold deref. destruct (heap w !! l); apply heap_rel_refl.
Qed.

Lemma effect_alloc r : effect (heap_rel P) (alloc r).
Proof.
  intros w l r0 Hl. exists r0. simpl.
  rewrite lookup_app_l by (eapply lookup_lt_Some; eassumption). auto.
Qed.

Lemma effect_approve l : effect (heap_rel P) (approve l).
Proof.
  intros w. unfold approve, bind, deref, store.
  destruct (heap w !! l) as [r|] eqn:Hl; simpl; [|apply heap_rel_refl].
  rewrite Hl. intros l0 r0 Hl0. simpl.
  destruct (decide (l0 = l)) as [->|Hne].
  - rewrite list_lookup_insert_eq by (eapply lookup_lt_Some; eassumption).
    eexists. split; [reflexivity|]. simpl. split; [congruence|auto].
  - rewrite list_lookup_insert_ne by congruence. exists r0. auto.
Qed.

Lemma effect_reject l : ~ P l -> effect (heap_rel P) (reject l).
Proof.
  intros HP w. unfold reject, bind, deref, store.
  destruct (heap w !! l) as [r|] eqn:Hl; simpl; [|apply heap_rel_refl].
  rewrite Hl. intros l0 r0 Hl0. simpl.
  destruct (decide (l0 = l)) as [->|Hne].
  - rewrite list_lookup_insert_eq by (eapply lookup_lt_Some; eassumption).
    eexists. split; [reflexivity|]. simpl. split; [congruence|].
    intros HPl. contradiction.
  - rewrite list_lookup_insert_ne by congruence. exists r0. auto.
Qed.

Create HintDb effects.

#[local] Hint Resolve effect_ret effect_raise effect_datetime_now
  effect_random_randint_0_2 effect_print effect_deref effect_alloc
  effect_approve : effects.

Ltac effects :=
  repeat first
    [ solve [auto with effects]
    | apply effect_bind; [|intros ?]
    | match goal with
      | |- effect _ (if ?b then _ else _) => destruct b
      | |- effect _ (match ?x with _ => _ end) => destruct x
      end ].

Lemma effect_Recommendation_str l : effect (heap_rel P) (Recommendation_str l).
Proof. unfold Recommendation_str. effects. Qed.

Lemma effect_for_each {A B} (f : A -> Py B) xs :
  (forall x, effect (heap_rel P) (f x)) ->
  effect (heap_rel P) (for_each f xs).
Proof. intros Hf. induction xs as [|x xs IH]; simpl; effects. Qed.

Lemma effect_view_recommendations report :
  effect (heap_rel P) (view_recommendations report).
Proof.
  unfold view_recommendations. apply effect_bind; [|intros; effects].
  apply effect_for_each, effect_Recommendation_str.
Qed.

Lemma effect_calculate_risk ty fw last :
  effect (heap_rel P) (calculate_risk ty fw last).
Proof. unfold calculate_risk. effects. Qed.

Lemma effect_IoTDevice_init id ty fw st :
  effect (heap_rel P) (IoTDevice_init id ty fw st).
Proof.
  unfold IoTDevice_init. apply effect_bind; [effects|intros t].
  apply effect_bind; [apply effect_calculate_risk|intros r]. effects.
Qed.

Lemma effect_check_access user action :
  effect (heap_rel P) (check_access user action).
Proof. unfold check_access. effects. Qed.

Lemma effect_approval_step report number :
  effect (heap_rel P) (approval_step report number).
Proof.
  unfold approval_step. apply effect_bind; [effects|intros _].
  apply effect_bind; [apply effect_view_recommendations|intros text].
  effects.
Qed.

Lemma effect_apply_op op report :
  op_respects P op -> effect (heap_rel P) (apply_op op report).
Proof.
  intros Hop.
  destruct op; simpl in *;
    try (apply effect_bind;
         [first [ apply effect_IoTDevice_init
                | apply effect_view_recommendations
                | apply effect_check_access
                | apply effect_approval_step
                | apply effect_reject; assumption
                | unfold Recommendation_init; effects ]
         | intros ? ]);
    try apply effect_Recommendation_str;
    try (destruct (devices report !! index);
         [apply effect_bind; [apply effect_calculate_risk|intros ?]|]);
    effects.
Qed.

Lemma effect_run_ops ops report w :
  Forall (op_respects P) ops ->
  heap_rel P w (session_world (run_ops ops report w)).
Proof.
  intros Hops. revert report w.
  induction Hops as [|op ops Hop Hops IH]; intros report w; simpl.
  - apply heap_rel_refl.
  - pose proof (effect_apply_op op report Hop w) as Hstep.
    destruct (apply_op op report w) as [[report'|e] w']; simpl in *.
    + eapply heap_rel_trans; [exact Hstep|apply IH].
    + exact Hstep.
Qed.

End Effects.

(** ** What the operations return *)

Section Results.

Lemma yields_ret {A} (Q : A -> Prop) a : Q a -> yields Q (ret a).
Proof. intros HQ w a' w' Heq. inversion Heq. now subst. Qed.

Lemma yields_raise {A} (Q : A -> Prop) e : yields Q (raise e).
Proof. intros w a w' Heq. inversion Heq. Qed.

Lemma yields_bind {A B} (Q : B -> Prop) (m : Py A) (k : A -> Py B) :
  (forall a, yields Q (k a)) -> yields Q (bind m k).
Proof.
  intros Hk w b w' Heq. unfold bind in Heq.
  destruct (m w) as [[a|e] w1]; [|inversion Heq].
  exact (Hk a w1 b w' Heq).
Qed.

Lemma devices_kept_refl ds : devices_kept ds ds.
Proof. intros i d Hi. exists d. auto. Qed.

Lemma devices_kept_trans ds1 ds2 ds3 :
  devices_kept ds1 ds2 -> devices_kept ds2 ds3 -> devices_kept ds1 ds3.
Proof.
  intros H12 H23 i d Hi.
  destruct (H12 i d Hi) as (d2 & Hi2 & Hr2).
  destruct (H23 i d2 Hi2) as (d3 & Hi3 & Hr3).
  exists d3. split; [assumption|congruence].
Qed.

Lemma devices_kept_app ds d : devices_kept ds (ds ++ [d]).
Proof.
  intros i d0 Hi. exists d0. split; [|reflexivity].
  rewrite lookup_app_l by (eapply lookup_lt_Some; eassumption). assumption.
Qed.

Lemma devices_kept_set_status ds i d s :
  ds !! i = Some d -> devices_kept ds (<[i := set_status d s]> ds).
Proof.
  intros Hi j d0 Hj. destruct (decide (j = i)) as [->|Hne].
  - rewrite list_lookup_insert_eq by (eapply lookup_lt_Some; eassumption).
    eexists; split; [reflexivity|]. simpl. congruence.
  - rewrite list_lookup_insert_ne by congruence. exists d0. auto.
Qed.

Lemma report_step_refl report : report_step report report.
Proof. split; [apply devices_kept_refl|reflexivity]. Qed.

Lemma report_step_trans r1 r2 r3 :
  report_step r1 r2 -> report_step r2 r3 -> report_step r1 r3.
Proof.
  intros [Hd12 Hr12] [Hd23 Hr23]. split.
  - eapply devices_kept_trans; eassumption.
  - etransitivity; eassumption.
Qed.

Lemma yields_apply_op op report :
  yields (report_step report) (apply_op op report).
Proof.
  destruct op; simpl;
    repeat first
      [ apply yields_bind; intros ?
      | apply yields_ret, report_step_refl ].
  - apply yields_ret. split; [apply devices_kept_app|reflexivity].
  - destruct (devices report !! index) as [d|] eqn:Hi;
      [|apply yields_raise].
    apply yields_ret. split; [|reflexivity].
    now apply devices_kept_set_status.
  - destruct (devices report !! index) as [d|]; [|apply yields_raise].
    apply yields_bind. intros _. apply yields_ret, report_step_refl.
  - apply yields_ret. split; [apply devices_kept_refl|].
    now apply prefix_app_r.
  - apply yields_ret. split; [apply devices_kept_refl|].
    now apply prefix_app_r.
Qed.

Lemma run_ops_report_step ops report w :
  report_step report (session_report (run_ops ops report w)).
Proof.
  revert report w. induction ops as [|op ops IH]; intros report w; simpl.
  - apply report_step_refl.
  - pose proof (yields_apply_op op report w) as Hstep.
    destruct (apply_op op report w) as [[report'|e] w']; simpl.
    + eapply report_step_trans; [exact (Hstep report' w' eq_refl)|apply IH].
    + apply report_step_refl.
Qed.

Lemma report_wf_mono P report w w' :
  heap_rel P w w' -> report_wf report w -> report_wf report w'.
Proof.
  intros Hrel Hwf. apply heap_rel_length in Hrel.
  unfold report_wf in *. eapply Forall_impl; [exact Hwf|].
  simpl. intros l Hl. lia.
Qed.

Lemma lookup_fresh {A} (h : list A) (x : A) :
  (h ++ [x])%list !! length h = Some x.
Proof. now apply list_lookup_middle. Qed.

Lemma apply_op_CreateRecommendation_eq desc report w :
  apply_op (CreateRecommendation desc) report w =
    (Returns (add_recommendation report (length (heap w))),
     mkWorld (clock w) (clock_reads w) (randint_0_2 w) (rand_draws w)
       (stdout w ++ ["Recommendation added: Recommendation: " ++ desc
                     ++ " - Pending"])
       (heap w ++ [mkRecommendation desc false])).
Proof.
  unfold apply_op, Recommendation_init, Recommendation_str, bind, alloc, deref.
  simpl. rewrite lookup_fresh. reflexivity.
Qed.

Lemma apply_op_wf op report w report' w' :
  apply_op op report w = (Returns report', w') ->
  report_wf report w -> report_wf report' w'.
Proof.
  intros Heq Hwf.
  assert (Hmono : report_wf report w').
  { apply (report_wf_mono (fun _ => False) report w w'); [|assumption].
    pose proof (effect_apply_op (fun _ => False) op report) as Heff.
    specialize (Heff ltac:(destruct op; simpl; tauto) w).
    now rewrite Heq in Heff. }
  destruct op;
    try (assert (Hsame : recommendations report' = recommendations report);
         [ solve
             [ match type of Heq with
               | apply_op ?o _ _ = _ =>
                   cut (yields (fun r => recommendations r
                                         = recommendations report)
                               (apply_op o report));
                   [intros Hy; exact (Hy w report' w' Heq)|]
               end; simpl;
               repeat first
                 [ apply yields_bind; intros ?
                 | apply yields_ret; reflexivity
                 | apply yields_raise
                 | match goal with
                   | |- yields _ (match ?x with _ => _ end) => destruct x
                   end ] ]
         | unfold report_wf; rewrite Hsame; exact Hmono ]).
  - rewrite apply_op_CreateRecommendation_eq in Heq. inversion Heq; subst.
    unfold report_wf in *. simpl. rewrite length_app. simpl.
    apply Forall_app. split.
    + eapply Forall_impl; [exact Hwf|]. simpl. intros; lia.
    + repeat constructor. lia.
  - simpl in Heq. unfold bind, deref in Heq.
    destruct (heap w !! rec) as [r|] eqn:Hl; inversion Heq; subst.
    unfold report_wf in *. simpl. apply Forall_app. split; [assumption|].
    repeat constructor. eapply lookup_lt_Some; eassumption.
Qed.

Lemma run_ops_wf ops report w :
  report_wf report w ->
  report_wf (session_report (run_ops ops report w))
            (session_world (run_ops ops report w)).
Proof.
  revert report w. induction ops as [|op ops IH]; intros report w Hwf; simpl.
  - assumption.
  - pose proof (apply_op_wf op report w) as Hstep.
    pose proof (effect_apply_op (fun _ => False) op report
                  ltac:(destruct op; simpl; tauto) w) as Heff.
    destruct (apply_op op report w) as [[report'|e] w']; simpl in *.
    + apply IH. now apply (Hstep report' w').
    + eapply report_wf_mono; eassumption.
Qed.

Lemma Recommendation_str_eq l r w :
  heap w !! l = Some r ->
  Recommendation_str l w = (Returns (Recommendation_render r), w).
Proof. intros Hr. unfold Recommendation_str, bind, deref. now rewrite Hr. Qed.

Lemma for_each_Recommendation_str_spec ls w :
  Forall (fun l => l < length (heap w)) ls ->
  exists lines,
    for_each Recommendation_str ls w = (Returns lines, w)
    /\ Forall2 (fun l line =>
                  exists r, heap w !! l = Some r
                            /\ line = Recommendation_render r) ls lines.
Proof.
  induction 1 as [|l ls Hl Hls (lines & Heq & Hall)].
  - exists []. split; [reflexivity|constructor].
  - destruct (lookup_lt_is_Some_2 _ _ Hl) as [r Hr].
    exists (Recommendation_render r :: lines). split.
    + cbn [for_each]. unfold bind.
      rewrite (Recommendation_str_eq l r w Hr), Heq. reflexivity.
    + constructor; [eauto|assumption].
Qed.

Lemma view_recommendations_spec report w :
  report_wf report w ->
  exists lines,
    view_recommendations report w = (Returns (join nl lines), w)
    /\ Forall2 (fun l line =>
                  exists r, heap w !! l = Some r
                            /\ line = Recommendation_render r)
               (recommendations report) lines.
Proof.
  intros Hwf.
  destruct (for_each_Recommendation_str_spec _ _ Hwf) as (lines & Heq & Hall).
  exists lines. split; [|assumption].
  unfold view_recommendations, bind. rewrite Heq. reflexivity.
Qed.

End Results.

(** ** Risk level of a constructed device *)

(** C4.  The risk level is computed once, at construction, against the
    device's own creation timestamp: whenever the age computation sees
    fewer than 181 whole days between the two clock readings of the
    constructor, the risk level is the base value plus the random
    residual alone; it is untouched by a status assignment and by every
    later operation on the report (a later call of [calculate_risk]
    included, whose result is not stored), at whatever time those run. *)
Theorem risk_fixed_at_construction :
  (forall id ty fw st w,
      (construction_age_days w < 181)%Z ->
      exists d w',
        IoTDevice_init id ty fw st w = (Returns d, w')
        /\ last_updated d = clock w (clock_reads w)
        /\ risk_level d = (base_risk ty fw + randint_0_2 w (rand_draws w))%Z)
  /\ (forall d s, risk_level (set_status d s) = risk_level d)
  /\ (forall ops report w i d,
        devices report !! i = Some d ->
        exists d',
          devices (session_report (run_ops ops report w)) !! i = Some d'
          /\ risk_level d' = risk_level d).
Proof.
  split; [|split].
  - intros id ty fw st w Hage. rewrite IoTDevice_init_eq.
    eexists _, _. split; [reflexivity|]. simpl. split; [reflexivity|].
    rewrite bool_decide_eq_false_2 by lia. reflexivity.
  - reflexivity.
  - intros ops report w i d Hi.
    exact (proj1 (run_ops_report_step ops report w) i d Hi).
Qed.

Lemma risk_fixed_at_construction_witness :
  let w := mkWorld (fun n => 1000 * Z.of_nat n)%Z 0 (fun _ => 2%Z) 0 [] [] in
  (exists d w',
      IoTDevice_init "lock-7" "door_lock" "1.1" ACTIVE w = (Returns d, w')
      /\ last_updated d = 0%Z
      /\ risk_level d = 7%Z)
  /\ (exists d',
        devices
          (session_report
             (run_ops [SetStatus 0 INACTIVE; CalculateRisk 0;
                       CreateDevice "t-1" "thermostat" "1.0" ACTIVE;
                       PrintStatistics]
                (mkDeviceReport
                   [mkIoTDevice "lock-7" "door_lock" "1.1" ACTIVE 0 7] [])
                w)) !! 0
        = Some d'
        /\ risk_level d' = 7%Z).
Proof.
  intros w. split.
  - apply (proj1 risk_fixed_at_construction "lock-7" "door_lock" "1.1" ACTIVE w).
    vm_compute. reflexivity.
  - apply (proj2 (proj2 risk_fixed_at_construction)
             [SetStatus 0 INACTIVE; CalculateRisk 0;
              CreateDevice "t-1" "thermostat" "1.0" ACTIVE; PrintStatistics]
             (mkDeviceReport
                [mkIoTDevice "lock-7" "door_lock" "1.1" ACTIVE 0 7] [])
             w 0 (mkIoTDevice "lock-7" "door_lock" "1.1" ACTIVE 0 7)).
    reflexivity.
Defined.

(** ** Access control *)

Section Access.

Lemma check_access_active u action w :
  is_active u = true ->
  check_access (Some u) action w =
    (Returns (bool_decide (role u ∈ spec_allowed_roles action)), w).
Proof.
  intros Hact. unfold check_access. rewrite Hact. simpl.
  unfold spec_allowed_roles, spec_action_table, spec_allowed_roles_in.
  repeat (case_bool_decide; [subst action; simpl; unfold ret; repeat f_equal;
                             destruct (role u); reflexivity|]).
  repeat (rewrite (bool_decide_eq_false_2 (_ = action)) by congruence).
  reflexivity.
Qed.

Lemma check_access_inactive u action w :
  is_active u = false ->
  check_access (Some u) action w =
    (Returns false,
     mkWorld (clock w) (clock_reads w) (randint_0_2 w) (rand_draws w)
       (stdout w ++ ["Access Denied: User " ++ username u ++ " is inactive."])
       (heap w)).
Proof. intros Hact. unfold check_access. rewrite Hact. reflexivity. Qed.

End Access.

(** C1.  For an active user [check_access] answers by the fixed
    action-to-roles table and nothing else: an active Admin may
    add_device but not approve_recommendation, an active Manager may both
    approve_recommendation and modify_report, view_report is open to all
    three roles, and an action outside the four listed ones is refused
    to every user. *)
Theorem check_access_role_table :
  (forall u action w,
      is_active u = true ->
      check_access (Some u) action w =
        (Returns (bool_decide (role u ∈ spec_allowed_roles action)), w))
  /\ (forall name w,
        (check_access (Some (mkUser name ADMIN true)) "add_device" w).1
          = Returns true
        /\ (check_access (Some (mkUser name ADMIN true))
                         "approve_recommendation" w).1
           = Returns false)
  /\ (forall name w,
        (check_access (Some (mkUser name MANAGER true))
                      "approve_recommendation" w).1
          = Returns true
        /\ (check_access (Some (mkUser name MANAGER true)) "modify_report" w).1
           = Returns true)
  /\ (forall name r w,
        (check_access (Some (mkUser name r true)) "view_report" w).1
          = Returns true)
  /\ (forall u action w,
        action ∉ ["view_report"; "modify_report"; "add_device";
                  "approve_recommendation"] ->
        (check_access (Some u) action w).1 = Returns false).
Proof.
  split; [exact check_access_active|].
  split; [intros; split; reflexivity|].
  split; [intros; split; reflexivity|].
  split; [intros name r w; destruct r; reflexivity|].
  intros u action w Hnot.
  destruct (is_active u) eqn:Hact.
  - rewrite check_access_active by assumption. simpl. f_equal.
    apply bool_decide_eq_false_2.
    unfold spec_allowed_roles, spec_action_table, spec_allowed_roles_in.
    repeat (case_bool_decide;
            [exfalso; apply Hnot; subst action; set_solver|]).
    set_solver.
  - rewrite check_access_inactive by assumption. reflexivity.
Qed.

Lemma check_access_role_table_witness :
  check_access (Some (mkUser "ana" MANAGER true)) "modify_report"
    (mkWorld (fun _ => 0%Z) 0 (fun _ => 0%Z) 0 [] [])
  = (Returns true, mkWorld (fun _ => 0%Z) 0 (fun _ => 0%Z) 0 [] [])
  /\ (check_access (Some (mkUser "ana" MANAGER true)) "delete_report"
        (mkWorld (fun _ => 0%Z) 0 (fun _ => 0%Z) 0 [] [])).1
     = Returns false.
Proof.
  split.
  - exact (proj1 check_access_role_table (mkUser "ana" MANAGER true)
             "modify_report" (mkWorld (fun _ => 0%Z) 0 (fun _ => 0%Z) 0 [] [])
             eq_refl).
  - apply (proj2 (proj2 (proj2 (proj2 check_access_role_table)))).
    apply (bool_decide_unpack _). vm_compute. exact I.
Defined.

(** C2.  Handing [check_access] the result of a failed user lookup does
    not yield a denial: reading [is_active] on the absent user raises
    [AttributeError], for every action, and so does the authorization
    query of the session for a user name that was never registered. *)
Theorem check_access_absent_user_raises :
  (forall action w,
      check_access None action w =
        (Raises (AttributeError
                   "'NoneType' object has no attribute 'is_active'"), w))
  /\ (forall w,
        main_authorize (add_user AccessControl_init "ana" MANAGER true)
                       "ghost" w =
          (Raises (AttributeError
                     "'NoneType' object has no attribute 'is_active'"), w)).
Proof. split; reflexivity. Qed.

(** C3.  An inactive user is refused whatever the action and whatever
    the role: [check_access] returns false and prints the denial notice,
    and the answer is the same for every role the user could have. *)
Theorem inactive_user_denied (u : User) (action : string) (w : World) :
  is_active u = false ->
  check_access (Some u) action w =
    (Returns false,
     mkWorld (clock w) (clock_reads w) (randint_0_2 w) (rand_draws w)
       (stdout w ++ ["Access Denied: User " ++ username u ++ " is inactive."])
       (heap w))
  /\ (forall r,
        check_access (Some (mkUser (username u) r false)) action w
        = check_access (Some u) action w).
Proof.
  intros Hact. split; [now apply check_access_inactive|].
  intros r. now rewrite !check_access_inactive.
Qed.

Lemma inactive_user_denied_witness :
  check_access (Some (mkUser "max" MANAGER false)) "view_report"
    (mkWorld (fun _ => 0%Z) 0 (fun _ => 0%Z) 0 [] [])
  = (Returns false,
     mkWorld (fun _ => 0%Z) 0 (fun _ => 0%Z) 0
       ["Access Denied: User max is inactive."] []).
Proof.
  exact (proj1 (inactive_user_denied (mkUser "max" MANAGER false) "view_report"
                  (mkWorld (fun _ => 0%Z) 0 (fun _ => 0%Z) 0 [] []) eq_refl)).
Defined.

(** ** Statistics *)

Section Statistics.

Lemma high_risk_count ds :
  length (filter (fun d => (risk_level d >= 5)%Z) ds)
  = spec_high_risk (map risk_level ds).
Proof.
  unfold spec_high_risk. induction ds as [|d ds IH]; [reflexivity|].
  rewrite filter_cons. simpl. rewrite <- IH.
  case_decide; destruct (Z.leb_spec 5 (risk_level d)); simpl; lia.
Qed.

Lemma low_risk_count ds :
  length (filter (fun d => (risk_level d < 5)%Z) ds)
  = spec_low_risk (map risk_level ds).
Proof.
  unfold spec_low_risk. induction ds as [|d ds IH]; [reflexivity|].
  rewrite filter_cons. simpl. rewrite <- IH.
  case_decide; destruct (Z.ltb_spec (risk_level d) 5); simpl; lia.
Qed.

Lemma risk_bands_partition ds :
  length (filter (fun d => (risk_level d >= 5)%Z) ds)
  + length (filter (fun d => (risk_level d < 5)%Z) ds)
  = length ds.
Proof.
  induction ds as [|d ds IH]; [reflexivity|].
  rewrite !filter_cons. repeat case_decide; simpl; lia.
Qed.

Lemma status_partition ds :
  length (filter (fun d => status d = ACTIVE) ds)
  + length (filter (fun d => status d = INACTIVE) ds)
  + length (filter (fun d => status d = UNDER_MAINTENANCE) ds)
  = length ds.
Proof.
  induction ds as [|d ds IH]; [reflexivity|].
  rewrite !filter_cons.
  destruct (status d); repeat case_decide; try congruence; simpl; lia.
Qed.

End Statistics.

(** C7.  The statistics partition the device list: the total is the
    length of the list, the three status counts add up to the total, the
    high-risk count is the number of risk levels that are at least 5,
    the low-risk count the number below 5, and the two add up to the
    total; five devices with risk levels 5, 4, 6, 2, 5 give 3 high-risk
    and 2 low-risk devices.  The text returned prints these six counts. *)
Theorem statistics_partition (report : DeviceReport) :
  let s := statistics_counts report in
  let levels := map risk_level (devices report) in
  generate_statistics report = Statistics_render s
  /\ total_devices s = length (devices report)
  /\ active_devices s + inactive_devices s + maintenance_devices s
     = total_devices s
  /\ high_risk_devices s = spec_high_risk levels
  /\ low_risk_devices s = spec_low_risk levels
  /\ high_risk_devices s + low_risk_devices s = total_devices s
  /\ (levels = [5; 4; 6; 2; 5]%Z ->
      high_risk_devices s = 3 /\ low_risk_devices s = 2).
Proof.
  intros s levels. subst s levels. simpl.
  split; [reflexivity|]. split; [reflexivity|].
  split; [apply status_partition|].
  split; [apply high_risk_count|].
  split; [apply low_risk_count|].
  split; [apply risk_bands_partition|].
  intros Hlevels. rewrite high_risk_count, low_risk_count, Hlevels.
  split; reflexivity.
Qed.

Lemma statistics_partition_witness :
  let report :=
    mkDeviceReport
      [ mkIoTDevice "a" "smart_light" "1.0" ACTIVE 0 5;
        mkIoTDevice "b" "thermostat" "1.1" INACTIVE 0 4;
        mkIoTDevice "c" "security_camera" "1.0" ACTIVE 0 6;
        mkIoTDevice "d" "thermostat" "1.2" UNDER_MAINTENANCE 0 2;
        mkIoTDevice "e" "door_lock" "1.2" ACTIVE 0 5 ] [] in
  high_risk_devices (statistics_counts report) = 3
  /\ low_risk_devices (statistics_counts report) = 2.
Proof.
  intros report.
  apply (proj2 (proj2 (proj2 (proj2 (proj2 (proj2
           (statistics_partition report))))))).
  reflexivity.
Defined.

(** ** Recommendations and their approval *)

Section Approval.

Lemma approve_eq l r w :
  heap w !! l = Some r ->
  approve l w =
    (Returns tt,
     mkWorld (clock w) (clock_reads w) (randint_0_2 w) (rand_draws w)
       (stdout w) (<[l := mkRecommendation (description r) true]> (heap w))).
Proof.
  intros Hl. unfold approve, bind, deref, store. rewrite Hl. simpl.
  now rewrite Hl.
Qed.

Lemma reject_eq l r w :
  heap w !! l = Some r ->
  reject l w =
    (Returns tt,
     mkWorld (clock w) (clock_reads w) (randint_0_2 w) (rand_draws w)
       (stdout w) (<[l := mkRecommendation (description r) false]> (heap w))).
Proof.
  intros Hl. unfold reject, bind, deref, store. rewrite Hl. simpl.
  now rewrite Hl.
Qed.

(** Rendering reads the heap and nothing else, and writes nothing. *)
Lemma for_each_Recommendation_str_frame ls w w2 :
  heap w2 = heap w ->
  for_each Recommendation_str ls w2
  = ((for_each Recommendation_str ls w).1, w2).
Proof.
  intros Hheap. induction ls as [|l ls IH]; [reflexivity|].
  cbn [for_each]. unfold bind at 1 3.
  unfold Recommendation_str at 1 3, bind at 1 3, deref. rewrite Hheap.
  destruct (heap w !! l) as [r|]; simpl; [|reflexivity].
  unfold bind. rewrite IH.
  destruct (for_each Recommendation_str ls w) as [[lines|e] w1]; reflexivity.
Qed.

Lemma view_recommendations_frame report w w2 :
  heap w2 = heap w ->
  view_recommendations report w2 = ((view_recommendations report w).1, w2).
Proof.
  intros Hheap. unfold view_recommendations, bind.
  rewrite (for_each_Recommendation_str_frame _ w w2 Hheap).
  destruct (for_each Recommendation_str (recommendations report) w)
    as [[lines|e] w1]; reflexivity.
Qed.

Lemma approval_step_invalid report number w text :
  (view_recommendations report w).1 = Returns text ->
  (number < 1 \/ number > Z.of_nat (length (recommendations report)))%Z ->
  approval_step report number w =
    (Returns tt,
     mkWorld (clock w) (clock_reads w) (randint_0_2 w) (rand_draws w)
       (stdout w ++ [nl ++ "Pending Recommendations:"; text;
                     "Invalid recommendation index."])
       (heap w)).
Proof.
  intros Hview Hrange. unfold approval_step, bind at 1. simpl.
  unfold bind at 1.
  rewrite (view_recommendations_frame report w) by reflexivity.
  rewrite Hview. unfold bind at 1. simpl.
  rewrite bool_decide_eq_false_2 by lia.
  unfold print. simpl. rewrite <- !app_assoc. reflexivity.
Qed.

Lemma approval_step_valid report number w l r text :
  (view_recommendations report w).1 = Returns text ->
  (1 <= number <= Z.of_nat (length (recommendations report)))%Z ->
  recommendations report !! Z.to_nat (number - 1) = Some l ->
  heap w !! l = Some r ->
  approval_step report number w =
    (Returns tt,
     mkWorld (clock w) (clock_reads w) (randint_0_2 w) (rand_draws w)
       (stdout w ++ [nl ++ "Pending Recommendations:"; text;
                     "Recommendation approved."])
       (<[l := mkRecommendation (description r) true]> (heap w))).
Proof.
  intros Hview Hrange Hl Hr. unfold approval_step, bind at 1. simpl.
  unfold bind at 1.
  rewrite (view_recommendations_frame report w) by reflexivity.
  rewrite Hview. unfold bind at 1. simpl.
  rewrite bool_decide_eq_true_2 by lia. rewrite Hl.
  unfold bind. erewrite approve_eq by exact Hr.
  unfold print. simpl. rewrite <- !app_assoc. reflexivity.
Qed.

Lemma rendered_at_intro report w i l r :
  report_wf report w ->
  recommendations report !! i = Some l ->
  heap w !! l = Some r ->
  rendered_at report w i (Recommendation_render r).
Proof.
  intros Hwf Hi Hl.
  destruct (view_recommendations_spec report w Hwf) as (lines & Heq & Hall).
  exists lines. split; [assumption|].
  destruct (Forall2_lookup_l _ _ _ _ _ Hall Hi) as (line & Hline & r' & Hl' & ->).
  rewrite Hline. congruence.
Qed.

End Approval.

(** C8.  An approval with a 1-based number outside [1, length] reports
    "Invalid recommendation index." and completes normally; it leaves
    the heap of recommendations, the clock and the random source as they
    were and only adds the three printed lines to the output.  With two
    unapproved recommendations and the number 10, both stay unapproved. *)
Theorem approve_out_of_range (report : DeviceReport) (number : Z) (w : World) :
  report_wf report w ->
  (number < 1 \/ number > Z.of_nat (length (recommendations report)))%Z ->
  (exists text,
      view_recommendations report w = (Returns text, w)
      /\ approval_step report number w =
           (Returns tt,
            mkWorld (clock w) (clock_reads w) (randint_0_2 w) (rand_draws w)
              (stdout w ++ [nl ++ "Pending Recommendations:"; text;
                            "Invalid recommendation index."])
              (heap w)))
  /\ (forall l1 l2 r1 r2,
        recommendations report = [l1; l2] ->
        heap w !! l1 = Some r1 -> approved r1 = false ->
        heap w !! l2 = Some r2 -> approved r2 = false ->
        (approval_step report 10 w).1 = Returns tt
        /\ heap (approval_step report 10 w).2 !! l1 = Some r1
        /\ heap (approval_step report 10 w).2 !! l2 = Some r2).
Proof.
  intros Hwf Hrange.
  destruct (view_recommendations_spec report w Hwf) as (lines & Heq & _).
  split.
  - exists (join nl lines). split; [assumption|].
    apply approval_step_invalid; [now rewrite Heq|assumption].
  - intros l1 l2 r1 r2 Hrecs Hl1 _ Hl2 _.
    rewrite (approval_step_invalid report 10 w (join nl lines));
      [auto|now rewrite Heq|rewrite Hrecs; simpl; lia].
Qed.

Lemma approve_out_of_range_witness :
  let w := mkWorld (fun _ => 0%Z) 0 (fun _ => 0%Z) 0 []
             [mkRecommendation "patch cameras" false;
              mkRecommendation "rotate lock keys" false] in
  let report := mkDeviceReport [] [0; 1] in
  approval_step report 10 w =
    (Returns tt,
     mkWorld (fun _ => 0%Z) 0 (fun _ => 0%Z) 0
       [nl ++ "Pending Recommendations:";
        "Recommendation: patch cameras - Pending" ++ nl
        ++ "Recommendation: rotate lock keys - Pending";
        "Invalid recommendation index."]
       [mkRecommendation "patch cameras" false;
        mkRecommendation "rotate lock keys" false]).
Proof.
  intros w report.
  assert (Hwf : report_wf report w) by (repeat constructor).
  assert (Hrange : (10 < 1 \/ 10 > Z.of_nat (length (recommendations report)))%Z)
    by (right; reflexivity).
  destruct (proj1 (approve_out_of_range report 10 w Hwf Hrange))
    as (text & Hview & Hstep).
  rewrite Hstep. inversion Hview. reflexivity.
Defined.

Section RoundTrip.

Lemma no_reject_respects rec ops :
  Reject rec ∉ ops -> Forall (op_respects (fun l => l = rec)) ops.
Proof.
  intros Hnot. apply Forall_forall. intros op Hin.
  destruct op; simpl; auto. intros ->. contradiction.
Qed.

Lemma all_ops_respect ops : Forall (op_respects (fun _ => False)) ops.
Proof. apply Forall_forall. intros op _. destruct op; simpl; tauto. Qed.

Lemma run_ops_single op report w report' w' :
  apply_op op report w = (Returns report', w') ->
  run_ops [op] report w = mkSession (Returns tt) report' w'.
Proof. intros Heq. simpl. now rewrite Heq. Qed.

Lemma apply_op_ApprovalStep_valid report number w l r :
  report_wf report w ->
  (1 <= number <= Z.of_nat (length (recommendations report)))%Z ->
  recommendations report !! Z.to_nat (number - 1) = Some l ->
  heap w !! l = Some r ->
  exists w',
    apply_op (ApprovalStep number) report w = (Returns report, w')
    /\ heap w' = <[l := mkRecommendation (description r) true]> (heap w).
Proof.
  intros Hwf Hrange Hl Hr.
  destruct (view_recommendations_spec report w Hwf) as (lines & Heq & _).
  eexists. simpl. unfold bind.
  rewrite (approval_step_valid report number w l r (join nl lines));
    [split; reflexivity|now rewrite Heq|assumption..].
Qed.

Lemma apply_op_Reject_eq rec r report w :
  heap w !! rec = Some r ->
  exists w',
    apply_op (Reject rec) report w = (Returns report, w')
    /\ heap w' = <[rec := mkRecommendation (description r) false]> (heap w).
Proof.
  intros Hr. eexists. simpl. unfold bind. rewrite (reject_eq rec r w Hr).
  split; reflexivity.
Qed.

End RoundTrip.

(** C9.  A recommendation created and added to the report starts
    unapproved; approving it by its 1-based position makes
    [view_recommendations] render it as approved; it stays approved, and
    is rendered so, after any further operations (adding devices or
    recommendations, printing the report, the recommendations or the
    statistics, access checks, approvals, status changes) as long as
    none of them rejects that recommendation; rejecting it sets it back
    to unapproved. *)
Theorem approval_round_trip (report : DeviceReport) (w : World)
    (desc : string) (ops : list Op) :
  report_wf report w ->
  let rec := length (heap w) in
  let position := length (recommendations report) in
  let s1 := run_ops [CreateRecommendation desc] report w in
  let s2 := run_ops [ApprovalStep (Z.of_nat (S position))]
              (session_report s1) (session_world s1) in
  let s3 := run_ops ops (session_report s2) (session_world s2) in
  let s4 := run_ops [Reject rec] (session_report s3) (session_world s3) in
  (session_result s1 = Returns tt
   /\ recommendations (session_report s1)
      = (recommendations report ++ [rec])%list
   /\ heap (session_world s1) !! rec = Some (mkRecommendation desc false))
  /\ (session_result s2 = Returns tt
      /\ heap (session_world s2) !! rec = Some (mkRecommendation desc true)
      /\ rendered_at (session_report s2) (session_world s2) position
           ("Recommendation: " ++ desc ++ " - Approved"))
  /\ (Reject rec ∉ ops ->
      heap (session_world s3) !! rec = Some (mkRecommendation desc true)
      /\ rendered_at (session_report s3) (session_world s3) position
           ("Recommendation: " ++ desc ++ " - Approved"))
  /\ (session_result s4 = Returns tt
      /\ heap (session_world s4) !! rec = Some (mkRecommendation desc false)
      /\ rendered_at (session_report s4) (session_world s4) position
           ("Recommendation: " ++ desc ++ " - Pending")).
Proof.
  intros Hwf rec position s1 s2 s3 s4.
  (* creation *)
  pose proof (apply_op_CreateRecommendation_eq desc report w) as Hcreate.
  pose proof (apply_op_wf _ _ _ _ _ Hcreate Hwf) as Hwf1.
  assert (Hs1 : s1 = mkSession (Returns tt) (add_recommendation report rec)
                       (apply_op (CreateRecommendation desc) report w).2).
  { subst s1. rewrite Hcreate. apply run_ops_single. exact Hcreate. }
  set (report1 := add_recommendation report rec) in *.
  set (w1 := (apply_op (CreateRecommendation desc) report w).2) in *.
  assert (Hheap1 : heap w1 !! rec = Some (mkRecommendation desc false)).
  { subst w1. rewrite Hcreate. simpl. apply lookup_fresh. }
  assert (Hrecs1 : recommendations report1 !! position = Some rec).
  { subst report1. simpl. apply lookup_fresh. }
  assert (Hwf1' : report_wf report1 w1).
  { subst w1. rewrite Hcreate. exact Hwf1. }
  (* approval by position *)
  destruct (apply_op_ApprovalStep_valid report1 (Z.of_nat (S position)) w1 rec
              (mkRecommendation desc false) Hwf1') as (w2 & Happrove & Hheap2).
  { subst report1. simpl. rewrite length_app. simpl. subst position. lia. }
  { replace (Z.to_nat (Z.of_nat (S position) - 1)) with position by lia.
    exact Hrecs1. }
  { exact Hheap1. }
  assert (Hs2 : s2 = mkSession (Returns tt) report1 w2).
  { subst s2. rewrite Hs1. simpl session_report. simpl session_world.
    apply run_ops_single. exact Happrove. }
  assert (Hwf2 : report_wf report1 w2).
  { eapply apply_op_wf; eassumption. }
  assert (Hrec2 : heap w2 !! rec = Some (mkRecommendation desc true)).
  { rewrite Hheap2. apply list_lookup_insert_eq.
    eapply lookup_lt_Some; eassumption. }
  (* later operations *)
  assert (Hwf3 : report_wf (session_report s3) (session_world s3)).
  { subst s3. rewrite Hs2. apply run_ops_wf. exact Hwf2. }
  assert (Hrecs3 : recommendations (session_report s3) !! position = Some rec).
  { subst s3. rewrite Hs2. simpl session_report. simpl session_world.
    eapply prefix_lookup_Some; [exact Hrecs1|].
    apply (run_ops_report_step ops report1 w2). }
  assert (Hdesc3 : exists r3, heap (session_world s3) !! rec = Some r3
                              /\ description r3 = desc).
  { subst s3. rewrite Hs2. simpl session_report. simpl session_world.
    destruct (effect_run_ops _ ops report1 w2 (all_ops_respect ops) rec _ Hrec2)
      as (r3 & Hr3 & Hd3 & _).
    exists r3. split; assumption. }
  (* explicit rejection *)
  destruct Hdesc3 as (r3 & Hr3 & Hd3).
  destruct (apply_op_Reject_eq rec r3 (session_report s3) (session_world s3) Hr3)
    as (w4 & Hreject & Hheap4).
  assert (Hs4 : s4 = mkSession (Returns tt) (session_report s3) w4).
  { subst s4. apply run_ops_single. exact Hreject. }
  assert (Hrec4 : heap w4 !! rec = Some (mkRecommendation desc false)).
  { rewrite Hheap4, Hd3. apply list_lookup_insert_eq.
    eapply lookup_lt_Some; eassumption. }
  assert (Hwf4 : report_wf (session_report s3) w4).
  { eapply apply_op_wf; eassumption. }
  repeat split.
  - now rewrite Hs1.
  - now rewrite Hs1.
  - now rewrite Hs1.
  - now rewrite Hs2.
  - now rewrite Hs2.
  - rewrite Hs2. simpl session_report. simpl session_world.
    exact (rendered_at_intro report1 w2 position rec _ Hwf2 Hrecs1 Hrec2).
  - subst s3. rewrite Hs2. simpl session_report. simpl session_world.
    destruct (effect_run_ops _ ops report1 w2 (no_reject_respects rec ops H)
                rec _ Hrec2) as (r & Hr & Hd & Ha).
    rewrite Hr. f_equal. destruct r as [d a]. simpl in *.
    rewrite Hd, (Ha eq_refl eq_refl). reflexivity.
  - assert (Hkept : heap (session_world s3) !! rec
                    = Some (mkRecommendation desc true)).
    { subst s3. rewrite Hs2. simpl session_report. simpl session_world.
      destruct (effect_run_ops _ ops report1 w2 (no_reject_respects rec ops H)
                  rec _ Hrec2) as (r & Hr & Hd & Ha).
      rewrite Hr. f_equal. destruct r as [d a]. simpl in *.
      rewrite Hd, (Ha eq_refl eq_refl). reflexivity. }
    exact (rendered_at_intro _ _ position rec _ Hwf3 Hrecs3 Hkept).
  - now rewrite Hs4.
  - now rewrite Hs4.
  - rewrite Hs4. simpl session_report. simpl session_world.
    exact (rendered_at_intro _ _ position rec _ Hwf4 Hrecs3 Hrec4).
Qed.

Lemma approval_round_trip_witness :
  let w := mkWorld (fun n => Z.of_nat n) 0 (fun _ => 1%Z) 0 [] [] in
  let ops := [CreateDevice "cam-1" "security_camera" "1.0" ACTIVE;
              CreateRecommendation "rotate lock keys";
              PrintReport; PrintStatistics; ApprovalStep 2; SetStatus 0 INACTIVE] in
  let s2 := run_ops [CreateRecommendation "patch cameras"; ApprovalStep 1]
              DeviceReport_init w in
  heap (session_world (run_ops ops (session_report s2) (session_world s2)))
  = [mkRecommendation "patch cameras" true;
     mkRecommendation "rotate lock keys" true]
  /\ heap (session_world (run_ops ops (session_report s2) (session_world s2)))
       !! 0
     = Some (mkRecommendation "patch cameras" true).
Proof.
  intros w ops s2. split; [reflexivity|].
  refine (proj1 (proj1 (proj2 (proj2
            (approval_round_trip DeviceReport_init w "patch cameras" ops
               (List.Forall_nil _)))) _)).
  intros Hin.
  repeat (apply elem_of_cons in Hin as [Hin|Hin]; [discriminate Hin|]).
  inversion Hin.
Defined.

(** * Further properties of the code *)

(** ** Reading roles and statuses in the [__main__] block *)

Section Reading.

Lemma ascii_lower_not_upper c : is_ascii_upper (ascii_lower c) = false.
Proof.
  destruct c as [[] [] [] [] [] [] [] []]; vm_compute; reflexivity.
Qed.

Lemma str_lower_head_not_upper typed c rest :
  str_lower typed = String c rest -> is_ascii_upper c = false.
Proof.
  destruct typed as [|a typed']; simpl; [discriminate|].
  intros Heq. inversion Heq. apply ascii_lower_not_upper.
Qed.

Lemma str_lower_not_Role_name typed :
  str_lower typed ∉ map fst Role_members.
Proof.
  intros Hin. simpl in Hin.
  repeat (apply elem_of_cons in Hin as [Hin|Hin];
          [apply str_lower_head_not_upper in Hin; discriminate Hin|]).
  inversion Hin.
Qed.

Lemma str_lower_not_DeviceStatus_name typed :
  str_lower typed ∉ map fst DeviceStatus_members.
Proof.
  intros Hin. simpl in Hin.
  repeat (apply elem_of_cons in Hin as [Hin|Hin];
          [apply str_lower_head_not_upper in Hin; discriminate Hin|]).
  inversion Hin.
Qed.

Lemma read_role_eq typed : read_role typed = Some VIEWER.
Proof.
  unfold read_role.
  now rewrite bool_decide_eq_false_2 by apply str_lower_not_Role_name.
Qed.

Lemma read_status_eq typed : read_status typed = Some ACTIVE.
Proof.
  unfold read_status.
  now rewrite bool_decide_eq_false_2 by apply str_lower_not_DeviceStatus_name.
Qed.

End Reading.

(** X1.  Whatever is typed at the role prompt, the user loop stores the
    role Viewer: the answer is lower-cased before it is looked up among
    the upper-case member names, so the lookup never succeeds and the
    fallback is taken; no [KeyError] can arise. *)
Theorem read_role_always_viewer (typed : string) :
  read_role typed = Some VIEWER
  /\ (str_lower typed ∉ map fst Role_members)
  /\ (forall access_control username,
        create_user_step access_control username typed
        = Some (add_user access_control username VIEWER true)).
Proof.
  split; [apply read_role_eq|].
  split; [apply str_lower_not_Role_name|].
  intros access_control username. unfold create_user_step.
  now rewrite read_role_eq.
Qed.

(** X2.  Whatever is typed at the status prompt, the device loop builds
    the device with status Active, for the same reason; the device type
    it stores is the lower-cased answer. *)
Theorem read_status_always_active (typed : string) :
  read_status typed = Some ACTIVE
  /\ (str_lower typed ∉ map fst DeviceStatus_members)
  /\ (forall report device_id typed_type firmware_version,
        create_device_step report device_id typed_type firmware_version typed
        = Some (apply_op (CreateDevice device_id (str_lower typed_type)
                                       firmware_version ACTIVE) report)).
Proof.
  split; [apply read_status_eq|].
  split; [apply str_lower_not_DeviceStatus_name|].
  intros report device_id typed_type firmware_version.
  unfold create_device_step. now rewrite read_status_eq.
Qed.

Section MainLoops.

Lemma create_users_spec answers access_control :
  registry_of_viewers access_control ->
  exists access_control',
    create_users answers access_control = Some access_control'
    /\ registry_of_viewers access_control'
    /\ (forall name,
          is_Some (users access_control' !! name)
          <-> name ∈ map fst answers \/ is_Some (users access_control !! name)).
Proof.
  revert access_control.
  induction answers as [|[username typed] answers IH]; intros ac Hreg.
  - exists ac. split; [reflexivity|]. split; [assumption|].
    intros name. simpl. split; [auto|]. intros [Hin|H]; [inversion Hin|assumption].
  - simpl. unfold create_user_step. rewrite read_role_eq.
    destruct (IH (add_user ac username VIEWER true)) as (ac' & Heq & Hreg' & Hdom).
    { intros name user. unfold add_user. simpl. rewrite lookup_insert.
      case_decide; [subst; congruence|apply Hreg]. }
    exists ac'. split; [assumption|]. split; [assumption|].
    intros name. rewrite Hdom. unfold add_user. simpl.
    rewrite lookup_insert. rewrite elem_of_cons. case_decide.
    + subst. split; intros _; [left; left; reflexivity|].
      right. eexists; reflexivity.
    + split.
      * intros [Hin|H']; [left; right; assumption|right; assumption].
      * intros [[Heq'|Hin]|H']; [congruence|left; assumption|right; assumption].
Qed.

Lemma apply_op_CreateDevice_eq id ty fw st report w :
  exists d w',
    apply_op (CreateDevice id ty fw st) report w
    = (Returns (add_device report d), w')
    /\ device_id d = id /\ device_type d = ty /\ firmware_version d = fw
    /\ status d = st /\ heap w' = heap w.
Proof.
  eexists _, _. unfold apply_op, bind. rewrite IoTDevice_init_eq. simpl.
  split; [reflexivity|]. repeat split.
Qed.

Lemma create_devices_spec answers report w :
  exists new w',
    create_devices answers report w
    = Some (Returns (mkDeviceReport (devices report ++ new)
                                    (recommendations report)), w')
    /\ Forall (fun d => status d = ACTIVE) new
    /\ map device_id new = map (fun a => a.1.1.1) answers
    /\ map device_type new = map (fun a => str_lower a.1.1.2) answers
    /\ heap w' = heap w.
Proof.
  revert report w.
  induction answers as [|[[[id ty] fw] st] answers IH]; intros report w.
  - exists [], w. simpl. rewrite app_nil_r. destruct report; auto.
  - simpl. unfold create_device_step. rewrite read_status_eq.
    destruct (apply_op_CreateDevice_eq id (str_lower ty) fw ACTIVE report w)
      as (d & w1 & Heq & Hid & Hty & _ & Hst & Hheap1).
    rewrite Heq.
    destruct (IH (add_device report d) w1) as (new & w' & Heq' & Hall & Hids & Htys & Hheap).
    exists (d :: new), w'. rewrite Heq'. simpl.
    rewrite <- app_assoc. simpl.
    repeat split; [constructor; assumption|congruence..].
Qed.

Lemma filter_status_all ds :
  Forall (fun d => status d = ACTIVE) ds ->
  filter (fun d => status d = ACTIVE) ds = ds
  /\ filter (fun d => status d = INACTIVE) ds = []
  /\ filter (fun d => status d = UNDER_MAINTENANCE) ds = [].
Proof.
  induction 1 as [|d ds Hd Hds (IHa & IHi & IHm)]; [auto|].
  rewrite !filter_cons, Hd, IHa, IHi, IHm.
  repeat case_decide; try congruence. auto.
Qed.

End MainLoops.

(** X3.  Every user the user loop registers is an active Viewer stored
    under their own name; the registered names are exactly the typed
    ones.  For such a user the session's authorization query grants
    view_report without printing anything, every other action is
    refused, and the test that opens the recommendation loops fails. *)
Theorem main_registers_only_viewers (answers : list (string * string)) :
  exists access_control,
    create_users answers AccessControl_init = Some access_control
    /\ (forall name,
          is_Some (users_get access_control name) <-> name ∈ map fst answers)
    /\ (forall name user,
          users_get access_control name = Some user ->
          user = mkUser name VIEWER true
          /\ may_manage_recommendations user = false
          /\ (forall w, main_authorize access_control name w = (Returns true, w))
          /\ (forall action w,
                action <> "view_report" ->
                check_access (Some user) action w = (Returns false, w))).
Proof.
  destruct (create_users_spec answers AccessControl_init)
    as (ac & Heq & Hreg & Hdom).
  { intros name user. simpl. rewrite lookup_empty. discriminate. }
  exists ac. split; [assumption|]. split.
  - intros name. unfold users_get. rewrite Hdom. simpl. rewrite lookup_empty.
    split; [intros [H|[x Hx]]; [assumption|discriminate]|auto].
  - intros name user Hget. pose proof (Hreg name user Hget) as ->.
    split; [reflexivity|]. split; [reflexivity|]. split.
    + intros w. unfold main_authorize. rewrite Hget. reflexivity.
    + intros action w Hne. unfold check_access. simpl.
      rewrite bool_decide_eq_false_2 by assumption.
      repeat case_bool_decide; reflexivity.
Qed.

Lemma main_registers_only_viewers_witness :
  exists access_control,
    create_users [("ana", "admin"); ("bo", "Manager")] AccessControl_init
    = Some access_control
    /\ users_get access_control "ana" = Some (mkUser "ana" VIEWER true)
    /\ check_access (users_get access_control "ana") "add_device"
         (mkWorld (fun _ => 0%Z) 0 (fun _ => 0%Z) 0 [] [])
       = (Returns false, mkWorld (fun _ => 0%Z) 0 (fun _ => 0%Z) 0 [] []).
Proof.
  destruct (main_registers_only_viewers [("ana", "admin"); ("bo", "Manager")])
    as (ac & Heq & Hdom & Huser).
  exists ac. split; [exact Heq|].
  destruct (proj2 (Hdom "ana")) as [user Hget].
  { apply (bool_decide_unpack _). vm_compute. exact I. }
  destruct (Huser "ana" user Hget) as (-> & _ & _ & Hdeny).
  split; [exact Hget|]. rewrite Hget. apply Hdeny. discriminate.
Defined.

(** X4.  The device loop always completes: it appends one device per
    pass, in order, each with status Active, the typed identifier and
    the lower-cased typed type, and leaves the recommendations alone.
    Run on a fresh report it therefore yields statistics in which every
    device is counted active and none inactive or under maintenance. *)
Theorem main_devices_are_active
    (answers : list (string * string * string * string))
    (report : DeviceReport) (w : World) :
  exists new w',
    create_devices answers report w
    = Some (Returns (mkDeviceReport (devices report ++ new)
                                    (recommendations report)), w')
    /\ Forall (fun d => status d = ACTIVE) new
    /\ map device_id new = map (fun a => a.1.1.1) answers
    /\ map device_type new = map (fun a => str_lower a.1.1.2) answers
    /\ heap w' = heap w
    /\ (devices report = [] ->
        let s := statistics_counts
                   (mkDeviceReport (devices report ++ new)
                                   (recommendations report)) in
        total_devices s = length answers
        /\ active_devices s = length answers
        /\ inactive_devices s = 0
        /\ maintenance_devices s = 0).
Proof.
  destruct (create_devices_spec answers report w)
    as (new & w' & Heq & Hall & Hids & Htys & Hheap).
  exists new, w'. repeat (split; [assumption|]).
  intros Hempty. rewrite Hempty. simpl.
  destruct (filter_status_all new Hall) as (-> & -> & ->).
  assert (Hlen : length new = length answers).
  { rewrite <- (length_map device_id new), Hids. apply length_map. }
  auto.
Qed.

Lemma main_devices_are_active_witness :
  exists new w',
    create_devices [("cam-1", "Security_Camera", "1.0", "inactive");
                    ("x", "drone", "9", "under maintenance")]
      DeviceReport_init (mkWorld (fun _ => 0%Z) 0 (fun _ => 0%Z) 0 [] [])
    = Some (Returns (mkDeviceReport new []), w')
    /\ inactive_devices (statistics_counts (mkDeviceReport new [])) = 0
    /\ active_devices (statistics_counts (mkDeviceReport new [])) = 2.
Proof.
  destruct (main_devices_are_active
              [("cam-1", "Security_Camera", "1.0", "inactive");
               ("x", "drone", "9", "under maintenance")]
              DeviceReport_init
              (mkWorld (fun _ => 0%Z) 0 (fun _ => 0%Z) 0 [] []))
    as (new & w' & Heq & _ & _ & _ & _ & Hstats).
  exists new, w'. split; [exact Heq|].
  destruct (Hstats eq_refl) as (_ & Hactive & Hinactive & _).
  split; [exact Hinactive|exact Hactive].
Defined.

(** ** The user registry *)

(** X5.  [add_user] stores the user under the given name, replacing any
    earlier entry of that name and leaving all other names alone; looked
    up again and checked for view_report, an active user of any role is
    admitted silently and an inactive one is refused with the notice. *)
Theorem add_user_then_lookup (access_control : AccessControl) (name : string)
    (r : Role) (active : bool) :
  users_get (add_user access_control name r active) name
  = Some (mkUser name r active)
  /\ (forall other,
        other <> name ->
        users_get (add_user access_control name r active) other
        = users_get access_control other)
  /\ (forall r' active',
        add_user (add_user access_control name r' active') name r active
        = add_user access_control name r active)
  /\ (forall w,
        main_authorize (add_user access_control name r active) name w
        = if active then (Returns true, w)
          else (Returns false,
                mkWorld (clock w) (clock_reads w) (randint_0_2 w)
                  (rand_draws w)
                  (stdout w ++ ["Access Denied: User " ++ name
                                ++ " is inactive."])
                  (heap w))).
Proof.
  unfold users_get, add_user, main_authorize. simpl.
  split; [apply lookup_insert_eq|].
  split; [intros other Hne; now apply lookup_insert_ne|].
  split; [intros r' active'; now rewrite insert_insert_eq|].
  intros w. unfold users_get. simpl. rewrite lookup_insert_eq.
  destruct active; [destruct r|]; reflexivity.
Qed.

Lemma add_user_then_lookup_witness :
  users_get (add_user (add_user AccessControl_init "ana" ADMIN true)
                      "bo" VIEWER false) "ana"
  = Some (mkUser "ana" ADMIN true).
Proof.
  rewrite (proj1 (proj2 (add_user_then_lookup
                           (add_user AccessControl_init "ana" ADMIN true)
                           "bo" VIEWER false)) "ana")
    by discriminate.
  exact (proj1 (add_user_then_lookup AccessControl_init "ana" ADMIN true)).
Defined.

(** ** Report text *)

Section ReportText.

Lemma string_app_assoc (a b c : string) : (a ++ b) ++ c = a ++ b ++ c.
Proof.
  induction a as [|ch a IH]; [reflexivity|].
  change (String ch ((a ++ b) ++ c) = String ch (a ++ b ++ c)).
  now rewrite IH.
Qed.

Lemma join_cons sep x y ys :
  join sep (x :: y :: ys) = x ++ sep ++ join sep (y :: ys).
Proof. reflexivity. Qed.

Lemma join_snoc sep x xs y :
  join sep ((x :: xs) ++ [y])%list = join sep (x :: xs) ++ sep ++ y.
Proof.
  revert x. induction xs as [|x' xs IH]; intros x; [reflexivity|].
  change (((x :: x' :: xs) ++ [y])%list)
    with (x :: ((x' :: xs) ++ [y]))%list.
  change (((x' :: xs) ++ [y])%list) with (x' :: (xs ++ [y]))%list.
  rewrite join_cons.
  change (x' :: (xs ++ [y]))%list with (((x' :: xs) ++ [y])%list).
  rewrite IH, join_cons, !string_app_assoc. reflexivity.
Qed.

Lemma for_each_Recommendation_str_map ls w :
  Forall (fun l => l < length (heap w)) ls ->
  for_each Recommendation_str ls w
  = (Returns (map (fun l => from_option Recommendation_render ""
                                        (heap w !! l)) ls), w).
Proof.
  induction 1 as [|l ls Hl Hls IH]; [reflexivity|].
  destruct (lookup_lt_is_Some_2 _ _ Hl) as [r Hr].
  cbn [for_each]. unfold bind.
  rewrite (Recommendation_str_eq l r w Hr), IH. simpl. now rewrite Hr.
Qed.

End ReportText.

(** X6.  [generate_report] is empty for a report without devices, is the
    line of the device for a single device, and after [add_device] on a
    report that already has devices it is the old text, a newline and
    the line of the new device: lines appear in insertion order and
    there is no trailing newline. *)
Theorem generate_report_add_device (report : DeviceReport) (d : IoTDevice) :
  generate_report DeviceReport_init = ""
  /\ generate_report (add_device report d)
     = match devices report with
       | [] => IoTDevice_str d
       | _ :: _ => generate_report report ++ nl ++ IoTDevice_str d
       end.
Proof.
  split; [reflexivity|].
  unfold generate_report, add_device. simpl.
  destruct (devices report) as [|d0 ds]; [reflexivity|].
  rewrite map_app. simpl map. apply join_snoc.
Qed.

(** X7.  [view_recommendations] returns the empty text for a report
    without recommendations; after [add_recommendation] of an object it
    returns the old text, a newline and the line of that object (the
    line alone when it is the first), without changing the world. *)
Theorem view_recommendations_add (report : DeviceReport) (w : World)
    (l : nat) (r : Recommendation) :
  report_wf report w ->
  heap w !! l = Some r ->
  exists text,
    view_recommendations report w = (Returns text, w)
    /\ (recommendations report = [] -> text = "")
    /\ view_recommendations (add_recommendation report l) w
       = (Returns
            match recommendations report with
            | [] => Recommendation_render r
            | _ :: _ => text ++ nl ++ Recommendation_render r
            end, w).
Proof.
  intros Hwf Hl. unfold view_recommendations, add_recommendation, bind. simpl.
  rewrite (for_each_Recommendation_str_map _ w Hwf).
  rewrite for_each_Recommendation_str_map.
  2:{ apply Forall_app. split; [exact Hwf|]. repeat constructor.
      eapply lookup_lt_Some; eassumption. }
  eexists. split; [reflexivity|]. split.
  - intros ->. reflexivity.
  - rewrite map_app. simpl map. rewrite Hl. simpl from_option.
    destruct (recommendations report) as [|l0 ls]; [reflexivity|].
    simpl map. now rewrite join_snoc.
Qed.

Lemma view_recommendations_add_witness :
  exists text,
    view_recommendations (mkDeviceReport [] [0])
      (mkWorld (fun _ => 0%Z) 0 (fun _ => 0%Z) 0 []
         [mkRecommendation "patch" true; mkRecommendation "rotate" false])
    = (Returns text,
       mkWorld (fun _ => 0%Z) 0 (fun _ => 0%Z) 0 []
         [mkRecommendation "patch" true; mkRecommendation "rotate" false])
    /\ (recommendations (mkDeviceReport [] [0]) = [] -> text = "")
    /\ view_recommendations (add_recommendation (mkDeviceReport [] [0]) 1)
         (mkWorld (fun _ => 0%Z) 0 (fun _ => 0%Z) 0 []
            [mkRecommendation "patch" true; mkRecommendation "rotate" false])
       = (Returns (text ++ nl ++ "Recommendation: rotate - Pending"),
          mkWorld (fun _ => 0%Z) 0 (fun _ => 0%Z) 0 []
            [mkRecommendation "patch" true; mkRecommendation "rotate" false]).
Proof.
  apply (view_recommendations_add (mkDeviceReport [] [0])
           (mkWorld (fun _ => 0%Z) 0 (fun _ => 0%Z) 0 []
              [mkRecommendation "patch" true; mkRecommendation "rotate" false])
           1 (mkRecommendation "rotate" false)).
  - repeat constructor.
  - reflexivity.
Defined.

(** ** Statistics after a new device *)

(** X8.  Adding a device raises the total by one, raises exactly the
    counter of the device's status by one, and raises exactly one of the
    two risk-band counters by one: the high-risk one when the risk level
    is at least 5, the low-risk one otherwise. *)
Theorem statistics_add_device (report : DeviceReport) (d : IoTDevice) :
  let s := statistics_counts report in
  let s' := statistics_counts (add_device report d) in
  total_devices s' = S (total_devices s)
  /\ active_devices s'
     = active_devices s + (if bool_decide (status d = ACTIVE) then 1 else 0)
  /\ inactive_devices s'
     = inactive_devices s + (if bool_decide (status d = INACTIVE) then 1 else 0)
  /\ maintenance_devices s'
     = maintenance_devices s
       + (if bool_decide (status d = UNDER_MAINTENANCE) then 1 else 0)
  /\ high_risk_devices s'
     = high_risk_devices s + (if bool_decide (5 <= risk_level d)%Z then 1 else 0)
  /\ low_risk_devices s'
     = low_risk_devices s + (if bool_decide (5 <= risk_level d)%Z then 0 else 1).
Proof.
  simpl. rewrite !filter_app, !length_app, !filter_cons, !filter_nil. simpl.
  repeat split; try lia;
    repeat case_decide; repeat case_bool_decide; simpl; try lia; congruence.
Qed.

(** ** Approving and rejecting *)

(** X9.  [approve] and [reject] are idempotent and the later of two
    calls on one object wins: approving twice is approving once,
    rejecting after approving is rejecting, and conversely.  Either call
    changes nothing but the flag of that one object: the description,
    the other objects and the size of the heap stay as they were. *)
Theorem approve_reject_algebra (l : nat) (w : World) :
  (let* _ := approve l in approve l) w = approve l w
  /\ (let* _ := approve l in reject l) w = reject l w
  /\ (let* _ := reject l in approve l) w = approve l w
  /\ (let* _ := reject l in reject l) w = reject l w
  /\ (forall l' r,
        heap w !! l' = Some r ->
        exists r',
          heap (approve l w).2 !! l' = Some r'
          /\ description r' = description r
          /\ (l' <> l -> r' = r)
          /\ (l' = l -> approved r' = true))
  /\ (forall l' r,
        heap w !! l' = Some r ->
        exists r',
          heap (reject l w).2 !! l' = Some r'
          /\ description r' = description r
          /\ (l' <> l -> r' = r)
          /\ (l' = l -> approved r' = false))
  /\ length (heap (approve l w).2) = length (heap w)
  /\ length (heap (reject l w).2) = length (heap w).
Proof.
  destruct (heap w !! l) as [r|] eqn:Hl.
  - pose proof (lookup_lt_Some _ _ _ Hl) as Hlt.
    assert (Hins : forall b,
               <[l := mkRecommendation (description r) b]> (heap w) !! l
               = Some (mkRecommendation (description r) b))
      by (intros b; now apply list_lookup_insert_eq).
    unfold bind. rewrite (approve_eq l r w Hl), (reject_eq l r w Hl).
    repeat split.
    + erewrite approve_eq by (simpl; apply Hins). simpl.
      now rewrite list_insert_insert_eq.
    + erewrite reject_eq by (simpl; apply Hins). simpl.
      now rewrite list_insert_insert_eq.
    + erewrite approve_eq by (simpl; apply Hins). simpl.
      now rewrite list_insert_insert_eq.
    + erewrite reject_eq by (simpl; apply Hins). simpl.
      now rewrite list_insert_insert_eq.
    + intros l' r0 Hl'. simpl. destruct (decide (l' = l)) as [->|Hne].
      * rewrite Hins. eexists. split; [reflexivity|]. simpl.
        repeat split; [congruence|contradiction].
      * rewrite list_lookup_insert_ne by congruence. exists r0.
        repeat split; [assumption|contradiction].
    + intros l' r0 Hl'. simpl. destruct (decide (l' = l)) as [->|Hne].
      * rewrite Hins. eexists. split; [reflexivity|]. simpl.
        repeat split; [congruence|contradiction].
      * rewrite list_lookup_insert_ne by congruence. exists r0.
        repeat split; [assumption|contradiction].
    + simpl. apply length_insert.
    + simpl. apply length_insert.
  - assert (Ha : approve l w = (Raises (DanglingReference l), w))
      by (unfold approve, bind, deref; now rewrite Hl).
    assert (Hr : reject l w = (Raises (DanglingReference l), w))
      by (unfold reject, bind, deref; now rewrite Hl).
    unfold bind. rewrite Ha, Hr. simpl.
    repeat split; try reflexivity;
      intros l' r0 Hl'; exists r0; repeat split; try assumption;
      intros ->; congruence.
Qed.

Lemma approve_reject_algebra_witness :
  exists r',
    heap (approve 1 (mkWorld (fun _ => 0%Z) 0 (fun _ => 0%Z) 0 []
                       [mkRecommendation "patch" false;
                        mkRecommendation "rotate" false])).2 !! 1
    = Some r'
    /\ description r' = "rotate"
    /\ (1 <> 1 -> r' = mkRecommendation "rotate" false)
    /\ (1 = 1 -> approved r' = true).
Proof.
  apply (proj1 (proj2 (proj2 (proj2 (proj2
           (approve_reject_algebra 1
              (mkWorld (fun _ => 0%Z) 0 (fun _ => 0%Z) 0 []
                 [mkRecommendation "patch" false;
                  mkRecommendation "rotate" false])))))) 1
           (mkRecommendation "rotate" false)).
  reflexivity.
Defined.

(** X10.  An approval with a number inside [1, length] completes
    normally: it prints the header, the list as it was before the
    approval, and "Recommendation approved.", marks the object at that
    position approved (also when it already was) and changes no other
    object, no description, and neither the clock nor the random
    source. *)
Theorem approval_step_approves_position (report : DeviceReport) (number : Z)
    (w : World) :
  report_wf report w ->
  (1 <= number <= Z.of_nat (length (recommendations report)))%Z ->
  exists l r text,
    recommendations report !! Z.to_nat (number - 1) = Some l
    /\ heap w !! l = Some r
    /\ view_recommendations report w = (Returns text, w)
    /\ approval_step report number w =
         (Returns tt,
          mkWorld (clock w) (clock_reads w) (randint_0_2 w) (rand_draws w)
            (stdout w ++ [nl ++ "Pending Recommendations:"; text;
                          "Recommendation approved."])
            (<[l := mkRecommendation (description r) true]> (heap w)))
    /\ (forall l', l' <> l ->
          heap (approval_step report number w).2 !! l' = heap w !! l').
Proof.
  intros Hwf Hrange.
  assert (Hpos : Z.to_nat (number - 1) < length (recommendations report))
    by lia.
  destruct (lookup_lt_is_Some_2 _ _ Hpos) as [l Hl].
  assert (Hlt : l < length (heap w)).
  { unfold report_wf in Hwf. rewrite Forall_lookup in Hwf. eauto. }
  destruct (lookup_lt_is_Some_2 _ _ Hlt) as [r Hr].
  destruct (view_recommendations_spec report w Hwf) as (lines & Hview & _).
  exists l, r, (join nl lines).
  assert (Hstep := approval_step_valid report number w l r (join nl lines)).
  rewrite Hview in Hstep. specialize (Hstep eq_refl Hrange Hl Hr).
  repeat split; try assumption.
  intros l' Hne. rewrite Hstep. simpl.
  now rewrite list_lookup_insert_ne by congruence.
Qed.

Lemma approval_step_approves_position_witness :
  exists l r text,
    recommendations (mkDeviceReport [] [1; 0]) !! Z.to_nat (1 - 1) = Some l
    /\ heap (mkWorld (fun _ => 0%Z) 0 (fun _ => 0%Z) 0 []
               [mkRecommendation "patch" false;
                mkRecommendation "rotate" false]) !! l = Some r
    /\ view_recommendations (mkDeviceReport [] [1; 0])
         (mkWorld (fun _ => 0%Z) 0 (fun _ => 0%Z) 0 []
            [mkRecommendation "patch" false; mkRecommendation "rotate" false])
       = (Returns text,
          mkWorld (fun _ => 0%Z) 0 (fun _ => 0%Z) 0 []
            [mkRecommendation "patch" false; mkRecommendation "rotate" false])
    /\ (approval_step (mkDeviceReport [] [1; 0]) 1
          (mkWorld (fun _ => 0%Z) 0 (fun _ => 0%Z) 0 []
             [mkRecommendation "patch" false;
              mkRecommendation "rotate" false])).1
       = Returns tt.
Proof.
  assert (Hwf : report_wf (mkDeviceReport [] [1; 0])
                  (mkWorld (fun _ => 0%Z) 0 (fun _ => 0%Z) 0 []
                     [mkRecommendation "patch" false;
                      mkRecommendation "rotate" false]))
    by (repeat constructor).
  assert (Hrange : (1 <= 1 <= 2)%Z) by lia.
  destruct (approval_step_approves_position _ 1 _ Hwf Hrange)
    as (l & r & text & Hl & Hr & Hview & Hstep & _).
  exists l, r, text.
  split; [exact Hl|]. split; [exact Hr|]. split; [exact Hview|].
  now rewrite Hstep.
Defined.

(** X11.  A recommendation object that was added to the report at two
    positions is one object: approving it by either position makes
    [view_recommendations] render it as approved at both. *)
Theorem approval_reaches_every_alias (report : DeviceReport) (w : World)
    (i j l : nat) (r : Recommendation) :
  report_wf report w ->
  recommendations report !! i = Some l ->
  recommendations report !! j = Some l ->
  heap w !! l = Some r ->
  let w' := (approval_step report (Z.of_nat (S i)) w).2 in
  (approval_step report (Z.of_nat (S i)) w).1 = Returns tt
  /\ rendered_at report w' i
       ("Recommendation: " ++ description r ++ " - Approved")
  /\ rendered_at report w' j
       ("Recommendation: " ++ description r ++ " - Approved").
Proof.
  intros Hwf Hi Hj Hr w'.
  destruct (view_recommendations_spec report w Hwf) as (lines & Hview & _).
  assert (Hstep := approval_step_valid report (Z.of_nat (S i)) w l r
                     (join nl lines)).
  rewrite Hview in Hstep.
  pose proof (lookup_lt_Some _ _ _ Hi) as Hlt.
  specialize (Hstep eq_refl ltac:(lia)).
  replace (Z.to_nat (Z.of_nat (S i) - 1)) with i in Hstep by lia.
  specialize (Hstep Hi Hr).
  subst w'. rewrite Hstep. simpl.
  assert (Hwf' : report_wf report
                   (mkWorld (clock w) (clock_reads w) (randint_0_2 w)
                      (rand_draws w)
                      (stdout w ++ [nl ++ "Pending Recommendations:";
                                    join nl lines; "Recommendation approved."])
                      (<[l := mkRecommendation (description r) true]> (heap w)))).
  { unfold report_wf. simpl. rewrite length_insert. exact Hwf. }
  assert (Hl' : <[l := mkRecommendation (description r) true]> (heap w) !! l
                = Some (mkRecommendation (description r) true)).
  { apply list_lookup_insert_eq. eapply lookup_lt_Some; eassumption. }
  split; [reflexivity|].
  split; [exact (rendered_at_intro _ _ i l _ Hwf' Hi Hl')
         |exact (rendered_at_intro _ _ j l _ Hwf' Hj Hl')].
Qed.

Lemma approval_reaches_every_alias_witness :
  let w := mkWorld (fun _ => 0%Z) 0 (fun _ => 0%Z) 0 []
             [mkRecommendation "patch" false] in
  let report := mkDeviceReport [] [0; 0] in
  rendered_at report (approval_step report 1 w).2 1
    "Recommendation: patch - Approved".
Proof.
  intros w report.
  refine (proj2 (proj2 (approval_reaches_every_alias report w 0 1 0
                          (mkRecommendation "patch" false) _ eq_refl eq_refl
                          eq_refl))).
  repeat constructor.
Defined.

(** ** The shape of the permissions *)

(** X12.  For every user: whoever may add a device or approve a
    recommendation may also modify the report, whoever may modify it may
    view it, nobody may both add a device and approve a recommendation,
    viewing is allowed exactly to the active users, and a Viewer is
    allowed nothing but viewing. *)
Theorem permission_structure (u : User) (w : World) :
  let allowed action := (check_access (Some u) action w).1 = Returns true in
  (allowed "add_device" -> allowed "modify_report")
  /\ (allowed "approve_recommendation" -> allowed "modify_report")
  /\ (allowed "modify_report" -> allowed "view_report")
  /\ ~ (allowed "add_device" /\ allowed "approve_recommendation")
  /\ (allowed "view_report" <-> is_active u = true)
  /\ (role u = VIEWER ->
      forall action, action <> "view_report" -> ~ allowed action).
Proof.
  destruct u as [name r active]. simpl.
  split; [|split; [|split; [|split; [|split]]]].
  - destruct r, active; vm_compute; congruence.
  - destruct r, active; vm_compute; congruence.
  - destruct r, active; vm_compute; congruence.
  - destruct r, active; vm_compute; intros [H1 H2]; congruence.
  - destruct r, active; vm_compute; split; congruence.
  - intros -> action Hne. unfold check_access. simpl.
    destruct active; simpl; [|discriminate].
    rewrite bool_decide_eq_false_2 by assumption.
    repeat case_bool_decide; discriminate.
Qed.

Lemma permission_structure_witness :
  (check_access (Some (mkUser "ana" ADMIN true)) "modify_report"
     (mkWorld (fun _ => 0%Z) 0 (fun _ => 0%Z) 0 [] [])).1 = Returns true
  /\ ~ (check_access (Some (mkUser "vic" VIEWER true)) "modify_report"
          (mkWorld (fun _ => 0%Z) 0 (fun _ => 0%Z) 0 [] [])).1 = Returns true.
Proof.
  split.
  - apply (proj1 (permission_structure (mkUser "ana" ADMIN true)
                    (mkWorld (fun _ => 0%Z) 0 (fun _ => 0%Z) 0 [] []))).
    reflexivity.
  - apply (proj2 (proj2 (proj2 (proj2 (proj2
             (permission_structure (mkUser "vic" VIEWER true)
                (mkWorld (fun _ => 0%Z) 0 (fun _ => 0%Z) 0 [] []))))))).
    + reflexivity.
    + discriminate.
Defined.

(** ** Risk levels and risk bands *)

Section RiskBands.

Lemma base_risk_le_7 ty fw : (base_risk ty fw <= 7)%Z.
Proof.
  unfold base_risk, dict_get, DEVICE_RISK_LEVELS.
  repeat (rewrite lookup_insert; case_decide; simpl;
          [repeat (rewrite lookup_insert; case_decide; simpl; [lia|]);
           rewrite lookup_empty; simpl; lia|]).
  rewrite lookup_empty; simpl. rewrite lookup_empty. simpl. lia.
Qed.

Lemma risk_bands_add_device report d :
  high_risk_devices (statistics_counts (add_device report d))
  = high_risk_devices (statistics_counts report)
    + (if bool_decide (5 <= risk_level d)%Z then 1 else 0)
  /\ low_risk_devices (statistics_counts (add_device report d))
     = low_risk_devices (statistics_counts report)
       + (if bool_decide (5 <= risk_level d)%Z then 0 else 1).
Proof.
  simpl. rewrite !filter_app, !length_app, !filter_cons, !filter_nil.
  repeat case_decide; case_bool_decide; simpl; lia.
Qed.

Lemma timedelta_days_gt_180 delta :
  (timedelta_days delta > 180)%Z <-> (181 * microseconds_per_day <= delta)%Z.
Proof.
  unfold timedelta_days, microseconds_per_day. split; intros H.
  - assert (181 <= delta / 86400000000)%Z as H' by lia.
    pose proof (Z.mul_div_le delta 86400000000 ltac:(lia)). lia.
  - assert (181 <= delta / 86400000000)%Z; [|lia].
    apply Z.div_le_lower_bound; lia.
Qed.

End RiskBands.

(** X13.  The table alone decides the band of many devices: a device
    whose (type, version) pair has a base value of at least 5 is always
    counted high-risk, and a device whose pair is absent from the table
    is always counted low-risk, whatever the random residual and the
    firmware age. *)
Theorem risk_band_follows_table (id ty fw : string) (st : DeviceStatus)
    (w : World) (report : DeviceReport) :
  random_ok w ->
  exists d w',
    IoTDevice_init id ty fw st w = (Returns d, w')
    /\ ((5 <= base_risk ty fw)%Z ->
        (5 <= risk_level d)%Z
        /\ high_risk_devices (statistics_counts (add_device report d))
           = S (high_risk_devices (statistics_counts report))
        /\ low_risk_devices (statistics_counts (add_device report d))
           = low_risk_devices (statistics_counts report))
    /\ ((forall v, ~ configured ty fw v) ->
        (0 <= risk_level d <= 4)%Z
        /\ low_risk_devices (statistics_counts (add_device report d))
           = S (low_risk_devices (statistics_counts report))
        /\ high_risk_devices (statistics_counts (add_device report d))
           = high_risk_devices (statistics_counts report)).
Proof.
  intros Hrand. rewrite IoTDevice_init_eq. eexists _, _.
  split; [reflexivity|].
  pose proof (Hrand (rand_draws w)) as Hr.
  match goal with
  | |- context [add_device report ?d] =>
      destruct (risk_bands_add_device report d) as [Hhigh Hlow];
      rewrite Hhigh, Hlow
  end.
  simpl risk_level.
  destruct (bool_decide (construction_age_days w > 180)%Z); split.
  - intros Hbase. rewrite (bool_decide_eq_true_2 (5 <= _)%Z) by lia. lia.
  - intros Habs. rewrite (base_risk_absent ty fw Habs).
    rewrite (bool_decide_eq_false_2 (5 <= _)%Z) by lia. lia.
  - intros Hbase. rewrite (bool_decide_eq_true_2 (5 <= _)%Z) by lia. lia.
  - intros Habs. rewrite (base_risk_absent ty fw Habs).
    rewrite (bool_decide_eq_false_2 (5 <= _)%Z) by lia. lia.
Qed.

Lemma risk_band_follows_table_witness :
  exists d w',
    IoTDevice_init "x" "drone" "1.0" ACTIVE
      (mkWorld (fun n => 999 * microseconds_per_day * Z.of_nat n)%Z 0
               (fun _ => 2%Z) 0 [] [])
    = (Returns d, w')
    /\ (0 <= risk_level d <= 4)%Z.
Proof.
  destruct (risk_band_follows_table "x" "drone" "1.0" ACTIVE
              (mkWorld (fun n => 999 * microseconds_per_day * Z.of_nat n)%Z 0
                       (fun _ => 2%Z) 0 [] [])
              DeviceReport_init)
    as (d & w' & Heq & _ & Habs).
  - intros n. simpl. lia.
  - exists d, w'. split; [exact Heq|].
    apply Habs. intros v (versions & Hty & _). vm_compute in Hty.
    discriminate Hty.
Defined.

(** X14.  The age bonus of [calculate_risk] is added exactly when at
    least 181 full days, counted in microseconds, lie between
    [last_updated] and the clock reading: 180 days and any part of a
    further day give no bonus, and neither does a clock that reads
    earlier than [last_updated]. *)
Theorem age_bonus_threshold (ty fw : string) (last : Z) (w : World) :
  let elapsed := (clock w (clock_reads w) - last)%Z in
  (calculate_risk ty fw last w).1
  = Returns (base_risk ty fw
             + (if bool_decide (181 * microseconds_per_day <= elapsed)%Z
                then 2 else 0)
             + randint_0_2 w (rand_draws w))%Z.
Proof.
  intros elapsed. rewrite calculate_risk_eq. simpl. fold elapsed. f_equal.
  pose proof (timedelta_days_gt_180 elapsed) as Hiff.
  repeat case_bool_decide; try lia; tauto.
Qed.

(** X15.  No base value exceeds 7, so with a residual in [0, 2] no
    device ever gets a risk level above 11, and none above 9 when the
    constructor sees an age of at most 180 days. *)
Theorem risk_level_at_most_11 (id ty fw : string) (st : DeviceStatus)
    (w : World) :
  random_ok w ->
  exists d w',
    IoTDevice_init id ty fw st w = (Returns d, w')
    /\ (base_risk ty fw <= 7)%Z
    /\ (risk_level d <= 11)%Z
    /\ ((construction_age_days w <= 180)%Z -> (risk_level d <= 9)%Z).
Proof.
  intros Hrand. rewrite IoTDevice_init_eq. eexists _, _.
  split; [reflexivity|]. simpl.
  pose proof (Hrand (rand_draws w)). pose proof (base_risk_le_7 ty fw).
  repeat split; [assumption|case_bool_decide; lia|].
  intros Hage. rewrite bool_decide_eq_false_2 by lia. lia.
Qed.

Lemma risk_level_at_most_11_witness :
  exists d w',
    IoTDevice_init "lock" "door_lock" "1.0" ACTIVE
      (mkWorld (fun n => 999 * microseconds_per_day * Z.of_nat n)%Z 0
               (fun _ => 2%Z) 0 [] [])
    = (Returns d, w')
    /\ (risk_level d <= 11)%Z.
Proof.
  destruct (risk_level_at_most_11 "lock" "door_lock" "1.0" ACTIVE
              (mkWorld (fun n => 999 * microseconds_per_day * Z.of_nat n)%Z 0
                       (fun _ => 2%Z) 0 [] []))
    as (d & w' & Heq & _ & Hle & _).
  - intros n. simpl. lia.
  - exists d, w'. split; [exact Heq|exact Hle].
Defined.

(** ** Sessions are append-only *)

Section AppendOnly.

Lemma devices_kept_length ds ds' :
  devices_kept ds ds' -> length ds <= length ds'.
Proof.
  intros Hkept. destruct ds as [|d0 ds0] using rev_ind; [simpl; lia|].
  destruct (Hkept (length ds0) d0) as (d' & Hd' & _).
  - apply lookup_fresh.
  - apply lookup_lt_Some in Hd'. rewrite length_app. simpl. lia.
Qed.

End AppendOnly.

(** X16.  No sequence of operations ever removes anything: the
    recommendations the report started with remain, in place, as a
    prefix of the final list; the device list does not shrink; every
    recommendation object stays on the heap with its description; and a
    report that held only allocated objects still does.  This holds also
    when the session ends in an exception. *)
Theorem session_is_append_only (ops : list Op) (report : DeviceReport)
    (w : World) :
  let s := run_ops ops report w in
  recommendations report `prefix_of` recommendations (session_report s)
  /\ length (devices report) <= length (devices (session_report s))
  /\ length (heap w) <= length (heap (session_world s))
  /\ (forall l r,
        heap w !! l = Some r ->
        exists r',
          heap (session_world s) !! l = Some r'
          /\ description r' = description r)
  /\ (report_wf report w ->
      report_wf (session_report s) (session_world s)).
Proof.
  intros s. subst s.
  pose proof (run_ops_report_step ops report w) as [Hdev Hrecs].
  pose proof (effect_run_ops _ ops report w (all_ops_respect ops)) as Hheap.
  split; [exact Hrecs|].
  split; [now apply devices_kept_length|].
  split; [eapply heap_rel_length; exact Hheap|].
  split; [|apply run_ops_wf].
  intros l r Hl. destruct (Hheap l r Hl) as (r' & Hl' & Hd & _). eauto.
Qed.

Lemma session_is_append_only_witness :
  let w := mkWorld (fun _ => 0%Z) 0 (fun _ => 0%Z) 0 []
             [mkRecommendation "patch" true] in
  let s := run_ops [Reject 0; CreateRecommendation "rotate"; Approve 7]
             (mkDeviceReport [] [0]) w in
  session_result s = Raises (DanglingReference 7)
  /\ (exists r',
         heap (session_world s) !! 0 = Some r' /\ description r' = "patch")
  /\ report_wf (session_report s) (session_world s).
Proof.
  intros w s. split; [reflexivity|].
  pose proof (session_is_append_only
                [Reject 0; CreateRecommendation "rotate"; Approve 7]
                (mkDeviceReport [] [0]) w) as (_ & _ & _ & Hheap & Hwf).
  split.
  - apply (Hheap 0 (mkRecommendation "patch" true)). reflexivity.
  - apply Hwf. repeat constructor.
Defined.

(** ** What the rendered lines tell *)

Section Rendering.

Lemma string_app_inv_head (a b c : string) : a ++ b = a ++ c -> b = c.
Proof.
  induction a as [|ch a IH]; [trivial|].
  intros Heq. apply IH. now inversion Heq.
Qed.

End Rendering.

(** X17.  The rendered lines are faithful: two devices with the same
    identifier, type, version and status have the same report line only
    if they have the same risk level, and a recommendation is rendered
    differently when approved and when pending. *)
Theorem rendered_lines_are_faithful :
  (forall d1 d2,
      device_id d1 = device_id d2 ->
      device_type d1 = device_type d2 ->
      firmware_version d1 = firmware_version d2 ->
      status d1 = status d2 ->
      IoTDevice_str d1 = IoTDevice_str d2 ->
      risk_level d1 = risk_level d2)
  /\ (forall r1 r2,
        description r1 = description r2 ->
        Recommendation_render r1 = Recommendation_render r2 ->
        r1 = r2).
Proof.
  split.
  - intros d1 d2 Hid Hty Hfw Hst. unfold IoTDevice_str.
    rewrite Hid, Hty, Hfw, Hst. intros Heq.
    repeat apply string_app_inv_head in Heq.
    exact (pretty_Z_inj _ _ Heq).
  - intros [d1 a1] [d2 a2]. unfold Recommendation_render. simpl.
    intros -> Heq. repeat apply string_app_inv_head in Heq.
    destruct a1, a2; try reflexivity; discriminate Heq.
Qed.

Lemma rendered_lines_are_faithful_witness :
  risk_level (mkIoTDevice "a" "thermostat" "1.0" ACTIVE 0 6)
  = risk_level (mkIoTDevice "a" "thermostat" "1.0" ACTIVE 5 6).
Proof.
  apply (proj1 rendered_lines_are_faithful); reflexivity.
Defined.
